(** * researchAgent: the job registry, the staged runner and the job endpoints

    A shallow embedding of [shared/job_manager.py],
    [Agent/background_executor.py], [API/jobs.py], and of the log of
    [shared/state.py] and the stage display of [monitor_job.py].

    - Python [int] is [Z]; Python [float] is Rocq's primitive binary64
      [float], so [percentage] is computed with the same IEEE operations.
    - [str] is [string]; [Optional[str]] is [option string], with Python's
      truthiness ([None] and the empty string are falsy) written out.
    - [JobManager.jobs] is an insertion-ordered [dict]: an association list
      whose keys are unique, new keys appended at the end and assignments to an
      existing key kept in place.
    - [datetime.now().isoformat()] and [str(uuid.uuid4())] read the outside
      world: every operation that calls them receives the text they returned.
    - The lock only serialises whole method calls; a method is one function
      from registry to registry.  What runs between two such calls is given
      explicitly: the other contexts at an [await] of the runner, and the
      background tasks between the reads of the handlers that test a status
      before and after the lock ([create_job], [cancel_job]). *)

From Stdlib Require Import ZArith QArith Qpower List String Bool Lia.
From Stdlib Require Import Floats Uint63 SpecFloat DecimalString.
Import ListNotations.

Open Scope Z_scope.
Open Scope list_scope.
Open Scope string_scope.

(** ** Python values shared by the three modules *)

(** The values stored in the result dictionaries ([Dict[str, Any]]). *)
Inductive pyvalue : Type :=
| PyNone
| PyBool (b : bool)
| PyInt (z : Z)
| PyStr (s : string).

Definition pydict : Type := list (string * pyvalue).

(** An exception in flight, with [type(e).__name__] and [str(e)].
    [asyncio.CancelledError] derives from [BaseException] only, and so do
    [SystemExit], [KeyboardInterrupt] and [GeneratorExit]
    ([OtherBaseException]): no [except Exception] catches them.  Every other
    exception derives from [Exception]. *)
Inductive BaseException : Type :=
| CancelledError
| OtherBaseException (type_name : string) (message : string)
| Exception (type_name : string) (message : string).

Definition str_exc (e : BaseException) : string :=
  match e with
  | CancelledError => ""
  | OtherBaseException _ m => m
  | Exception _ m => m
  end.

Definition type_name_exc (e : BaseException) : string :=
  match e with
  | CancelledError => "CancelledError"
  | OtherBaseException n _ => n
  | Exception n _ => n
  end.

(** Truthiness of an [Optional[str]]. *)
Definition truthy (o : option string) : bool :=
  match o with
  | None => false
  | Some s => negb (String.eqb s "")
  end.

(** [a == b] on [Optional[str]]. *)
Definition opt_str_eqb (a b : option string) : bool :=
  match a, b with
  | None, None => true
  | Some x, Some y => String.eqb x y
  | _, _ => false
  end.

(** [int -> float], exact below 2^53. *)
Definition float_of_Z (z : Z) : float :=
  if Z.ltb z 0 then PrimFloat.opp (PrimFloat.of_uint63 (Uint63.of_Z (- z)))
  else PrimFloat.of_uint63 (Uint63.of_Z z).

(** [a / b] on two [int]s: [ZeroDivisionError] when [b] is zero, otherwise the
    correctly rounded quotient (the operands here are stage counts, far below
    2^53, where it is the IEEE quotient of the converted operands). *)
Definition py_truediv (a b : Z) : option float :=
  if Z.eqb b 0 then None
  else Some (PrimFloat.div (float_of_Z a) (float_of_Z b)).

Definition ZeroDivisionError : BaseException :=
  Exception "ZeroDivisionError" "division by zero".

(** [x > n] for a [float] [x] and an [int] [n].  Python does not convert [n]:
    it compares the two numbers exactly, so the test is right for every [n],
    however large.  A NaN is greater than nothing. *)
Definition float_gt_Z (x : float) (n : Z) : bool :=
  match Prim2SF x with
  | S754_nan => false
  | S754_infinity s => negb s
  | S754_zero _ => Z.ltb n 0
  | S754_finite s m e =>
      let v := if s then Z.neg m else Z.pos m in
      if Z.leb 0 e then Z.ltb n (v * 2 ^ e)
      else Z.ltb (n * 2 ^ (- e)) v
  end.

(** ** shared/job_manager.py *)
Module job_manager.

Inductive JobStatus : Type :=
| PENDING | RUNNING | COMPLETED | FAILED | CANCELLED | RETRY.

Inductive JobStage : Type :=
| INITIALIZATION
| DOCUMENT_RETRIEVAL
| WEB_RESEARCH
| CITATION_VERIFICATION
| COMPLIANCE_CHECK
| REPORT_GENERATION
| FINALIZATION.

Definition status_value (s : JobStatus) : string :=
  match s with
  | PENDING => "pending"
  | RUNNING => "running"
  | COMPLETED => "completed"
  | FAILED => "failed"
  | CANCELLED => "cancelled"
  | RETRY => "retry"
  end.

Definition stage_value (s : JobStage) : string :=
  match s with
  | INITIALIZATION => "initialization"
  | DOCUMENT_RETRIEVAL => "document_retrieval"
  | WEB_RESEARCH => "web_research"
  | CITATION_VERIFICATION => "citation_verification"
  | COMPLIANCE_CHECK => "compliance_check"
  | REPORT_GENERATION => "report_generation"
  | FINALIZATION => "finalization"
  end.

Definition all_stages : list JobStage :=
  [INITIALIZATION; DOCUMENT_RETRIEVAL; WEB_RESEARCH; CITATION_VERIFICATION;
   COMPLIANCE_CHECK; REPORT_GENERATION; FINALIZATION].

Definition JobStatus_eqb (a b : JobStatus) : bool :=
  match a, b with
  | PENDING, PENDING | RUNNING, RUNNING | COMPLETED, COMPLETED
  | FAILED, FAILED | CANCELLED, CANCELLED | RETRY, RETRY => true
  | _, _ => false
  end.

(** [status in [...]]. *)
Definition status_in (s : JobStatus) (l : list JobStatus) : bool :=
  existsb (JobStatus_eqb s) l.

(** [v in l] on a list of [str]. *)
Definition str_in (v : string) (l : list string) : bool :=
  existsb (String.eqb v) l.

(** *** JobProgress *)

Record JobProgress : Type := mkJobProgress {
  current_stage : JobStage;
  stages_completed : list string;
  total_stages : Z;
  completed_stages : Z;
  percentage : float;
  current_operation : string;
  last_updated : string
}.

(** [JobProgress()]: the defaults, [last_updated] from the clock. *)
Definition JobProgress_default (now : string) : JobProgress :=
  mkJobProgress INITIALIZATION [] 7 0 0%float "" now.

(** [JobProgress.update].  The fields are assigned in the source's order, so
    when the division raises the earlier assignments have already happened:
    the function returns the progress as the call left it together with the
    exception, if any. *)
Definition update (self : JobProgress) (stage : JobStage) (operation : string)
    (now : string) : JobProgress * option BaseException :=
  let stages :=
    if str_in (stage_value stage) (stages_completed self)
    then stages_completed self
    else (stages_completed self ++ [stage_value stage])%list in
  let completed :=
    if str_in (stage_value stage) (stages_completed self)
    then completed_stages self
    else Z.of_nat (List.length stages) in
  match py_truediv completed (total_stages self) with
  | None =>
      (mkJobProgress stage stages (total_stages self) completed
         (percentage self) operation (last_updated self),
       Some ZeroDivisionError)
  | Some ratio =>
      (mkJobProgress stage stages (total_stages self) completed
         (PrimFloat.mul ratio (float_of_Z 100)) operation now,
       None)
  end.

(** *** Job *)

(** One entry of [execution_history]. *)
Record ExecutionRecord : Type := mkExecutionRecord {
  timestamp : string;
  stage : string;
  success : bool;
  details : string
}.

Record Job : Type := mkJob {
  job_id : string;
  query : string;
  status : JobStatus;
  created_at : string;
  started_at : option string;
  completed_at : option string;
  progress : JobProgress;
  result : option pydict;
  error : option string;
  retry_count : Z;
  max_retries : Z;
  cancellation_requested : bool;
  idempotency_key : option string;
  execution_history : list ExecutionRecord
}.

(** Attribute assignments [job.f = v]. *)
Definition set_status (v : JobStatus) (j : Job) : Job :=
  mkJob (job_id j) (query j) v (created_at j) (started_at j) (completed_at j)
    (progress j) (result j) (error j) (retry_count j) (max_retries j)
    (cancellation_requested j) (idempotency_key j) (execution_history j).

Definition set_started_at (v : option string) (j : Job) : Job :=
  mkJob (job_id j) (query j) (status j) (created_at j) v (completed_at j)
    (progress j) (result j) (error j) (retry_count j) (max_retries j)
    (cancellation_requested j) (idempotency_key j) (execution_history j).

Definition set_completed_at (v : option string) (j : Job) : Job :=
  mkJob (job_id j) (query j) (status j) (created_at j) (started_at j) v
    (progress j) (result j) (error j) (retry_count j) (max_retries j)
    (cancellation_requested j) (idempotency_key j) (execution_history j).

Definition set_progress (v : JobProgress) (j : Job) : Job :=
  mkJob (job_id j) (query j) (status j) (created_at j) (started_at j)
    (completed_at j) v (result j) (error j) (retry_count j) (max_retries j)
    (cancellation_requested j) (idempotency_key j) (execution_history j).

Definition set_result (v : option pydict) (j : Job) : Job :=
  mkJob (job_id j) (query j) (status j) (created_at j) (started_at j)
    (completed_at j) (progress j) v (error j) (retry_count j) (max_retries j)
    (cancellation_requested j) (idempotency_key j) (execution_history j).

Definition set_error (v : option string) (j : Job) : Job :=
  mkJob (job_id j) (query j) (status j) (created_at j) (started_at j)
    (completed_at j) (progress j) (result j) v (retry_count j) (max_retries j)
    (cancellation_requested j) (idempotency_key j) (execution_history j).

Definition set_retry_count (v : Z) (j : Job) : Job :=
  mkJob (job_id j) (query j) (status j) (created_at j) (started_at j)
    (completed_at j) (progress j) (result j) (error j) v (max_retries j)
    (cancellation_requested j) (idempotency_key j) (execution_history j).

Definition set_cancellation_requested (v : bool) (j : Job) : Job :=
  mkJob (job_id j) (query j) (status j) (created_at j) (started_at j)
    (completed_at j) (progress j) (result j) (error j) (retry_count j)
    (max_retries j) v (idempotency_key j) (execution_history j).

Definition set_execution_history (v : list ExecutionRecord) (j : Job) : Job :=
  mkJob (job_id j) (query j) (status j) (created_at j) (started_at j)
    (completed_at j) (progress j) (result j) (error j) (retry_count j)
    (max_retries j) (cancellation_requested j) (idempotency_key j) v.

Definition set_percentage (v : float) (p : JobProgress) : JobProgress :=
  mkJobProgress (current_stage p) (stages_completed p) (total_stages p)
    (completed_stages p) v (current_operation p) (last_updated p).

(** [Job(job_id=..., query=..., idempotency_key=...)]: the dataclass defaults;
    [created_at] and the progress record's [last_updated] each read the
    clock. *)
Definition Job_new (id q : string) (key : option string)
    (now_created now_progress : string) : Job :=
  mkJob id q PENDING now_created None None (JobProgress_default now_progress)
    None None 0 3 false key [].

(** [Job.add_execution_record]. *)
Definition add_execution_record (self : Job) (stage : string) (success : bool)
    (details : string) (now : string) : Job :=
  set_execution_history
    (execution_history self ++ [mkExecutionRecord now stage success details])%list
    self.

(** *** The registry: [self.jobs], an insertion-ordered dict *)

Definition JobManager : Type := list (string * Job).

(** [d.get(k)]. *)
Fixpoint dict_get (d : JobManager) (k : string) : option Job :=
  match d with
  | [] => None
  | (k', v) :: rest => if String.eqb k' k then Some v else dict_get rest k
  end.

(** [d[k] = v]: an existing key keeps its place, a new one goes last. *)
Fixpoint dict_set (d : JobManager) (k : string) (v : Job) : JobManager :=
  match d with
  | [] => [(k, v)]
  | (k', v') :: rest =>
      if String.eqb k' k then (k, v) :: rest else (k', v') :: dict_set rest k v
  end.

(** [d.values()], in insertion order. *)
Definition dict_values (d : JobManager) : list Job := map snd d.

(** The body of [if job_id in self.jobs: job = self.jobs[job_id]; ...]: the
    entry is mutated in place when present, nothing happens otherwise. *)
Definition with_job (d : JobManager) (k : string) (f : Job -> Job)
    : JobManager :=
  match dict_get d k with
  | Some job => dict_set d k (f job)
  | None => d
  end.

(** The loop of [create_job]: the first job, in insertion order, carrying the
    key and being COMPLETED or RUNNING. *)
Fixpoint find_existing (vals : list Job) (key : option string) : option Job :=
  match vals with
  | [] => None
  | job :: rest =>
      if opt_str_eqb (idempotency_key job) key
         && status_in (status job) [COMPLETED; RUNNING]
      then Some job
      else find_existing rest key
  end.

(** [JobManager.create_job].  [uuid4] is the text of the identifier drawn,
    [now_created] and [now_progress] the two clock readings of the record's
    default factories. *)
Definition create_job (self : JobManager) (q : string)
    (key : option string) (uuid4 now_created now_progress : string)
    : Job * JobManager :=
  match (if truthy key then find_existing (dict_values self) key else None) with
  | Some job => (job, self)
  | None =>
      let job := Job_new uuid4 q key now_created now_progress in
      (job, dict_set self uuid4 job)
  end.

(** [JobManager.get_job]. *)
Definition get_job (self : JobManager) (id : string) : option Job :=
  dict_get self id.


(** [JobManager.update_job_status]. *)
Definition update_job_status (self : JobManager) (id : string)
    (st : JobStatus) (now : string) : JobManager :=
  with_job self id (fun job =>
    let job := set_status st job in
    if JobStatus_eqb st RUNNING && negb (truthy (started_at job))
    then set_started_at (Some now) job
    else if status_in st [COMPLETED; FAILED; CANCELLED]
    then set_completed_at (Some now) job
    else job).

(** [JobManager.update_job_progress]; an exception of [JobProgress.update]
    passes through, after the partial update. *)
Definition update_job_progress (self : JobManager) (id : string)
    (stage : JobStage) (operation : string) (now : string)
    : JobManager * option BaseException :=
  match dict_get self id with
  | Some job =>
      let (p, exc) := update (progress job) stage operation now in
      (dict_set self id (set_progress p job), exc)
  | None => (self, None)
  end.

(** [JobManager.cancel_job]. *)
Definition cancel_job (self : JobManager) (id : string) : bool * JobManager :=
  match dict_get self id with
  | Some job =>
      if JobStatus_eqb (status job) RUNNING
      then (true, dict_set self id (set_cancellation_requested true job))
      else (false, self)
  | None => (false, self)
  end.

(** [JobManager.is_cancellation_requested]. *)
Definition is_cancellation_requested (self : JobManager) (id : string) : bool :=
  match get_job self id with
  | Some job => cancellation_requested job
  | None => false
  end.

(** [JobManager.mark_job_completed]. *)
Definition mark_job_completed (self : JobManager) (id : string)
    (res : pydict) (now : string) : JobManager :=
  with_job self id (fun job =>
    let job := set_status COMPLETED job in
    let job := set_result (Some res) job in
    let job := set_completed_at (Some now) job in
    set_progress (set_percentage 100%float (progress job)) job).

(** [JobManager.mark_job_failed]. *)
Definition mark_job_failed (self : JobManager) (id : string)
    (err : string) (allow_retry : bool) (now : string) : JobManager :=
  with_job self id (fun job =>
    let job := set_error (Some err) job in
    if allow_retry && Z.ltb (retry_count job) (max_retries job)
    then set_retry_count (retry_count job + 1) (set_status RETRY job)
    else set_completed_at (Some now) (set_status FAILED job)).

(** [del d[k]]: [None] is the [KeyError] of a missing key. *)
Fixpoint dict_del (d : JobManager) (k : string) : option JobManager :=
  match d with
  | [] => None
  | (k', v) :: rest =>
      if String.eqb k' k then Some rest
      else option_map (cons (k', v)) (dict_del rest k)
  end.

(** The test [cleanup_old_jobs] makes on one job.  [age_hours t] is
    [(current_time - datetime.fromisoformat(t)).total_seconds() / 3600] for the
    [current_time] the sweep read when it started, or the exception that
    [fromisoformat] or the subtraction raises on [t]. *)
Definition expired (age_hours : string -> float + BaseException)
    (max_age_hours : Z) (job : Job) : bool + BaseException :=
  if status_in (status job) [COMPLETED; FAILED; CANCELLED] then
    match completed_at job with
    | Some t =>
        if truthy (Some t) then
          match age_hours t with
          | inl age => inl (float_gt_Z age max_age_hours)
          | inr e => inr e
          end
        else inl false
    | None => inl false
    end
  else inl false.

(** The first loop of [cleanup_old_jobs]: the ids to remove, in registry
    order, unless a timestamp makes [fromisoformat] raise. *)
Fixpoint jobs_to_remove (age_hours : string -> float + BaseException)
    (max_age_hours : Z) (items : JobManager)
    : list string + BaseException :=
  match items with
  | [] => inl []
  | (id, job) :: rest =>
      match expired age_hours max_age_hours job with
      | inr e => inr e
      | inl old =>
          match jobs_to_remove age_hours max_age_hours rest with
          | inr e => inr e
          | inl ids => inl (if old then id :: ids else ids)
          end
      end
  end.

(** The second loop: [del self.jobs[job_id]] for each id; a [KeyError] stops
    it with the earlier deletions done. *)
Fixpoint delete_each (d : JobManager) (ids : list string)
    : JobManager * option BaseException :=
  match ids with
  | [] => (d, None)
  | id :: rest =>
      match dict_del d id with
      | Some d' => delete_each d' rest
      | None => (d, Some (Exception "KeyError" id))
      end
  end.

(** [JobManager.cleanup_old_jobs]: the number of jobs removed, or the
    exception raised, and the registry left. *)
Definition cleanup_old_jobs (self : JobManager)
    (age_hours : string -> float + BaseException) (max_age_hours : Z)
    : (Z + BaseException) * JobManager :=
  match jobs_to_remove age_hours max_age_hours self with
  | inr e => (inr e, self)
  | inl ids =>
      match delete_each self ids with
      | (d, None) => (inl (Z.of_nat (List.length ids)), d)
      | (d, Some e) => (inr e, d)
      end
  end.

(** [asdict(job.progress)], with [current_stage] replaced by its value as
    [Job.to_dict] does. *)
Record ProgressDict : Type := mkProgressDict {
  d_current_stage : string;
  d_stages_completed : list string;
  d_total_stages : Z;
  d_completed_stages : Z;
  d_percentage : float;
  d_current_operation : string;
  d_last_updated : string
}.

(** The dictionary [Job.to_dict] returns, one field per key. *)
Record JobDict : Type := mkJobDict {
  d_job_id : string;
  d_query : string;
  d_status : string;
  d_created_at : string;
  d_started_at : option string;
  d_completed_at : option string;
  d_progress : ProgressDict;
  d_result : option pydict;
  d_error : option string;
  d_retry_count : Z;
  d_max_retries : Z;
  d_cancellation_requested : bool;
  d_idempotency_key : option string;
  d_execution_history : list ExecutionRecord
}.

(** [Job.to_dict]. *)
Definition to_dict (self : Job) : JobDict :=
  let p := progress self in
  mkJobDict (job_id self) (query self) (status_value (status self))
    (created_at self) (started_at self) (completed_at self)
    (mkProgressDict (stage_value (current_stage p)) (stages_completed p)
       (total_stages p) (completed_stages p) (percentage p)
       (current_operation p) (last_updated p))
    (result self) (error self) (retry_count self) (max_retries self)
    (cancellation_requested self) (idempotency_key self)
    (execution_history self).

End job_manager.

(** ** Agent/background_executor.py *)
Module background_executor.
Import job_manager.

(** What a call leaves behind: a value, or an exception in flight. *)
Inductive outcome (A : Type) : Type :=
| Returned (a : A)
| Raised (e : BaseException).
Arguments Returned {A} a.
Arguments Raised {A} e.

(** The world the runner acts on: the registry of the global [job_manager],
    the number of registry calls the runner has made so far (each may read
    the clock) and the number of [await]s it has been suspended at. *)
Record World : Type := mkWorld {
  registry : JobManager;
  instant : nat;
  awaits : nat
}.

(** A piece of runner code. *)
Definition Run (A : Type) : Type := World -> outcome A * World.

Definition ret {A : Type} (a : A) : Run A := fun w => (Returned a, w).

Definition raise {A : Type} (e : BaseException) : Run A :=
  fun w => (Raised e, w).

Definition bind {A B : Type} (m : Run A) (k : A -> Run B) : Run B :=
  fun w =>
    match m w with
    | (Returned a, w') => k a w'
    | (Raised e, w') => (Raised e, w')
    end.

(** [try: m  except ...: h e]. *)
Definition try_except {A : Type} (m : Run A) (h : BaseException -> Run A)
    : Run A :=
  fun w =>
    match m w with
    | (Returned a, w') => (Returned a, w')
    | (Raised e, w') => h e w'
    end.

Notation "x <- m ;; k" := (bind m (fun x => k))
  (at level 61, m at next level, right associativity).
Notation "m ;;; k" := (bind m (fun _ => k))
  (at level 61, right associativity).

(** [stage_delays], in seconds. *)
Definition stage_delays (s : JobStage) : Z :=
  match s with
  | INITIALIZATION => 2
  | DOCUMENT_RETRIEVAL => 3
  | WEB_RESEARCH => 4
  | CITATION_VERIFICATION => 2
  | COMPLIANCE_CHECK => 2
  | REPORT_GENERATION => 3
  | FINALIZATION => 1
  end.

(** [f"{x:.0f}"]: the float rounded to an integer, ties to even, in decimal;
    a negative sign is kept. *)
Definition format_0f (x : float) : string :=
  let digits (n : Z) := NilZero.string_of_uint (N.to_uint (Z.to_N n)) in
  let sign (s : bool) := if s then "-" else "" in
  match Prim2SF x with
  | S754_zero s => sign s ++ "0"
  | S754_infinity s => sign s ++ "inf"
  | S754_nan => "nan"
  | S754_finite s m e =>
      if Z.leb 0 e then sign s ++ digits (Z.pos m * 2 ^ e)
      else
        let d := 2 ^ (- e) in
        let q := Z.pos m / d in
        let r := Z.pos m mod d in
        let n :=
          if Z.ltb (2 * r) d then q
          else if Z.ltb d (2 * r) then q + 1
          else if Z.even q then q else q + 1 in
        sign s ++ digits n
  end.

(** The dictionary [_handle_cancellation] returns. *)
Definition cancellation_result : pydict :=
  [("success", PyBool false); ("cancelled", PyBool true);
   ("message", PyStr "Job was cancelled")].

Section Runner.

(** [clock n]: the text [datetime.now().isoformat()] gives during the
    runner's [n]-th registry call. *)
Variable clock : nat -> string.

(** [env n]: what the other execution contexts (the API handlers) do to the
    registry while the runner is suspended at its [n]-th [await]. *)
Variable env : nat -> JobManager -> JobManager.

(** The research collaborator: [ResearchAgent()] either builds the agent or
    raises; [agent.run_research(query)] returns a dictionary or raises. *)
Variable ResearchAgent_init : option BaseException.
Variable run_research : string -> outcome pydict.

(** A registry method called by the runner, at the current clock reading. *)
Definition manager_call (f : JobManager -> string -> JobManager) : Run unit :=
  fun w =>
    (Returned tt,
     mkWorld (f (registry w) (clock (instant w))) (S (instant w)) (awaits w)).

(** [job_manager.update_job_progress(...)], which may raise. *)
Definition progress_call (id : string) (stage : JobStage) (operation : string)
    : Run unit :=
  fun w =>
    let (jm, exc) :=
      update_job_progress (registry w) id stage operation (clock (instant w)) in
    (match exc with None => Returned tt | Some e => Raised e end,
     mkWorld jm (S (instant w)) (awaits w)).

(** An [await]: the runner is suspended and the other contexts run. *)
Definition suspend : Run unit :=
  fun w =>
    (Returned tt,
     mkWorld (env (awaits w) (registry w)) (instant w) (S (awaits w))).

(** [await asyncio.sleep(d)]: only the suspension matters to the state. *)
Definition sleep (d : float) : Run unit := suspend.

(** [BackgroundJobExecutor._check_cancellation]. *)
Definition _check_cancellation (id : string) : Run bool :=
  fun w => (Returned (is_cancellation_requested (registry w) id), w).

(** [BackgroundJobExecutor._handle_cancellation]. *)
Definition _handle_cancellation (id : string) : Run pydict :=
  manager_call (fun jm now => update_job_status jm id CANCELLED now) ;;;
  ret cancellation_result.

(** The [for step in range(steps)] loop of [_execute_stage_with_delay];
    returning early is the [break]. *)
Fixpoint stage_steps (id : string) (stage : JobStage) (operation : string)
    (steps : Z) (step_delay : float) (range : list Z) : Run unit :=
  match range with
  | [] => ret tt
  | step :: rest =>
      sleep step_delay ;;;
      cancelled <- _check_cancellation id ;;
      if cancelled then ret tt
      else
        let progress_percent :=
          PrimFloat.mul
            (PrimFloat.div (float_of_Z (step + 1)) (float_of_Z steps))
            (float_of_Z 100) in
        progress_call id stage
          (operation ++ " (" ++ format_0f progress_percent ++ "%)") ;;;
        stage_steps id stage operation steps step_delay rest
  end.

(** [BackgroundJobExecutor._execute_stage_with_delay]. *)
Definition _execute_stage_with_delay (id : string) (stage : JobStage)
    (operation : string) : Run unit :=
  progress_call id stage operation ;;;
  let delay := stage_delays stage in
  let steps := 5 in
  let step_delay := PrimFloat.div (float_of_Z delay) (float_of_Z steps) in
  stage_steps id stage operation steps step_delay [0; 1; 2; 3; 4].

(** [job.add_execution_record(...)].  [job] is the object fetched from the
    registry when the run started; while its entry stays in the registry the
    object and the entry are one, so the record is appended to the entry. *)
Definition record_stage (id : string) (stage : JobStage) (details : string)
    : Run unit :=
  manager_call (fun jm now =>
    with_job jm id (fun job =>
      add_execution_record job (stage_value stage) true details now)).

(** [ResearchAgent()]. *)
Definition ResearchAgent : Run unit :=
  match ResearchAgent_init with
  | None => ret tt
  | Some e => raise e
  end.

(** [await agent.run_research(query)]: a suspension, then the collaborator's
    outcome. *)
Definition await_run_research (q : string) : Run pydict :=
  suspend ;;;
  match run_research q with
  | Returned r => ret r
  | Raised e => raise e
  end.

(** The [try] block of [execute_job]. *)
Definition execute_job_body (id : string) (job : Job) : Run pydict :=
  (* STAGE 1: INITIALIZATION *)
  _execute_stage_with_delay id INITIALIZATION
    "Initializing research agent and loading configurations" ;;;
  c1 <- _check_cancellation id ;;
  if c1 then _handle_cancellation id else
  ResearchAgent ;;;
  record_stage id INITIALIZATION "Agent initialized successfully" ;;;
  (* STAGE 2: DOCUMENT RETRIEVAL *)
  _execute_stage_with_delay id DOCUMENT_RETRIEVAL
    "Searching document database using RAG" ;;;
  c2 <- _check_cancellation id ;;
  if c2 then _handle_cancellation id else
  record_stage id DOCUMENT_RETRIEVAL
    "Documents retrieved from vector database" ;;;
  (* STAGE 3: WEB RESEARCH *)
  _execute_stage_with_delay id WEB_RESEARCH
    "Conducting web research for current information" ;;;
  c3 <- _check_cancellation id ;;
  if c3 then _handle_cancellation id else
  record_stage id WEB_RESEARCH "Web research completed" ;;;
  (* STAGE 4: CITATION VERIFICATION *)
  _execute_stage_with_delay id CITATION_VERIFICATION
    "Verifying and formatting citations" ;;;
  c4 <- _check_cancellation id ;;
  if c4 then _handle_cancellation id else
  record_stage id CITATION_VERIFICATION "Citations verified and formatted" ;;;
  (* STAGE 5: COMPLIANCE CHECK *)
  _execute_stage_with_delay id COMPLIANCE_CHECK
    "Running PII scan and compliance checks" ;;;
  c5 <- _check_cancellation id ;;
  if c5 then _handle_cancellation id else
  record_stage id COMPLIANCE_CHECK "Compliance check passed" ;;;
  (* STAGE 6: REPORT GENERATION *)
  _execute_stage_with_delay id REPORT_GENERATION
    "Generating comprehensive research report" ;;;
  c6 <- _check_cancellation id ;;
  if c6 then _handle_cancellation id else
  res <- await_run_research (query job) ;;
  record_stage id REPORT_GENERATION "Report generated successfully" ;;;
  (* STAGE 7: FINALIZATION *)
  _execute_stage_with_delay id FINALIZATION
    "Finalizing report and cleanup" ;;;
  record_stage id FINALIZATION "Job finalized" ;;;
  manager_call (fun jm now => mark_job_completed jm id res now) ;;;
  ret res.

(** [BackgroundJobExecutor.execute_job]. *)
Definition execute_job (id : string) : Run pydict :=
  fun w =>
    match get_job (registry w) id with
    | None => raise (Exception "ValueError" ("Job " ++ id ++ " not found")) w
    | Some job =>
        (manager_call (fun jm now => update_job_status jm id RUNNING now) ;;;
         try_except (execute_job_body id job)
           (fun e =>
              match e with
              | CancelledError => _handle_cancellation id
              | OtherBaseException _ _ => raise e
              | Exception _ _ =>
                  manager_call (fun jm now =>
                    mark_job_failed jm id (str_exc e) true now) ;;;
                  raise e
              end)) w
    end.

End Runner.

End background_executor.

(** ** Python list slices *)


(** [l[i:]]: without the first [i] elements, or the last [-i] when [i] is
    negative. *)
Definition slice_from {A : Type} (l : list A) (i : Z) : list A :=
  if Z.leb 0 i then skipn (Z.to_nat i) l
  else skipn (List.length l - Z.to_nat (- i)) l.

(** ** API/jobs.py *)
Module jobs.
Import job_manager.
Import background_executor.

(** What an endpoint answers: a JSON body, or an [HTTPException]. *)
Inductive response : Type :=
| Ok (body : pydict)
| HTTPException (status_code : Z) (detail : string).

(** [retry_job].  [background_tasks] is the list of job ids for which
    [execute_job_wrapper] has been scheduled.  [job] is the registry's own
    object, so [job.error = None] assigns to the registry entry. *)
Definition retry_job (jm : JobManager) (background_tasks : list string)
    (id : string) (now : string)
    : response * JobManager * list string :=
  match get_job jm id with
  | None => (HTTPException 404 "Job not found", jm, background_tasks)
  | Some job =>
      if negb (status_in (status job) [FAILED; CANCELLED])
      then (HTTPException 400
              ("Cannot retry job with status: " ++ status_value (status job)),
            jm, background_tasks)
      else
        let jm := update_job_status jm id PENDING now in
        let jm := with_job jm id (set_error None) in
        (Ok [("message", PyStr "Job retry initiated"); ("job_id", PyStr id)],
         jm, (background_tasks ++ [id])%list)
  end.

Section Wrapper.

Variable clock : nat -> string.
Variable env : nat -> JobManager -> JobManager.
Variable ResearchAgent_init : option BaseException.
Variable run_research : string -> outcome pydict.

(** [execute_job_wrapper]: [except Exception] catches neither
    [CancelledError] nor the other classes outside [Exception]; the handler
    falls off the end and returns [None]. *)
Definition execute_job_wrapper (id : string) : Run (option pydict) :=
  try_except
    (res <- execute_job clock env ResearchAgent_init run_research id ;;
     ret (Some res))
    (fun e =>
       match e with
       | CancelledError => raise e
       | OtherBaseException _ _ => raise e
       | Exception _ _ =>
           let error_msg := type_name_exc e ++ ": " ++ str_exc e in
           manager_call clock (fun jm now =>
             mark_job_failed jm id error_msg true now) ;;;
           ret None
       end).

End Wrapper.

(** *** Background tasks running beside a handler *)

(** [execute_job_wrapper] is a plain function, so the framework runs it on a
    worker thread, where it starts an event loop of its own.  The handlers
    are coroutines of the server's loop and contain no [await]: no handler
    runs during another, but the registry calls of the background tasks fall
    anywhere between two statements of a handler.  These are the calls the
    tasks make; [job.add_execution_record] writes to the job object, the
    others go through the registry. *)
Inductive thread_call : Type :=
| call_update_job_status (id : string) (st : JobStatus) (now : string)
| call_update_job_progress (id : string) (stage : JobStage)
    (operation now : string)
| call_add_execution_record (id : string) (stage : JobStage)
    (details now : string)
| call_mark_job_completed (id : string) (res : pydict) (now : string)
| call_mark_job_failed (id : string) (err : string) (now : string).

(** The job a call is about. *)
Definition call_id (c : thread_call) : string :=
  match c with
  | call_update_job_status id _ _ => id
  | call_update_job_progress id _ _ _ => id
  | call_add_execution_record id _ _ _ => id
  | call_mark_job_completed id _ _ => id
  | call_mark_job_failed id _ _ => id
  end.

(** What one call does to the registry. *)
Definition thread_call_run (c : thread_call) (jm : JobManager) : JobManager :=
  match c with
  | call_update_job_status id st now => update_job_status jm id st now
  | call_update_job_progress id stage operation now =>
      fst (update_job_progress jm id stage operation now)
  | call_add_execution_record id stage details now =>
      with_job jm id (fun job =>
        add_execution_record job (stage_value stage) true details now)
  | call_mark_job_completed id res now => mark_job_completed jm id res now
  | call_mark_job_failed id err now => mark_job_failed jm id err true now
  end.

(** The calls that fall between two statements of a handler, in order. *)
Definition threads_run (calls : list thread_call) (jm : JobManager)
    : JobManager :=
  fold_left (fun jm c => thread_call_run c jm) calls jm.

(** A handler holds the job object that [get_job] or [create_job] gave it and
    reads its attributes later.  The background tasks change a job in place
    and never remove one, so what the handler reads is the registry entry of
    that moment; [job] itself is read only when the entry is gone. *)
Definition live (jm : JobManager) (id : string) (job : Job) : Job :=
  match job_manager.get_job jm id with
  | Some j => j
  | None => job
  end.

(** *** The endpoints of [router] *)
Module router.

(** What an endpoint answers: its body, or [raise HTTPException(...)]. *)
Inductive answer (A : Type) : Type :=
| Sent (body : A)
| Refused (status_code : Z) (detail : string).
Arguments Sent {A} body.
Arguments Refused {A} status_code detail.

(** [CreateJobRequest]. *)
Record CreateJobRequest : Type := mkCreateJobRequest {
  request_query : string;
  request_idempotency_key : option string
}.

(** [JobResponse]. *)
Record JobResponse : Type := mkJobResponse {
  response_job_id : string;
  response_query : string;
  response_status : string;
  response_created_at : string;
  response_progress : ProgressDict;
  response_result : option pydict;
  response_error : option string
}.

(** [JobResponse] built from the keys of [job.to_dict()]: the model keeps its
    seven fields and ignores the other keys. *)
Definition JobResponse_of (d : JobDict) : JobResponse :=
  mkJobResponse (d_job_id d) (d_query d) (d_status d) (d_created_at d)
    (d_progress d) (d_result d) (d_error d).

(** [create_job].  Nothing in the [try] block raises in this model, so the
    [except] answering 500 is not taken.  The job is read twice after
    [job_manager.create_job] has released the lock: its status for the test,
    then all of it for the answer.  [threads 0] are the calls of the
    background tasks that fall before the first read, [threads 1] those
    between the two.  A job is registered under its own [job_id]. *)
Definition create_job (jm : JobManager) (threads : nat -> list thread_call)
    (background_tasks : list string) (request : CreateJobRequest)
    (uuid4 now_created now_progress : string)
    : answer JobResponse * JobManager * list string :=
  let (job, jm) :=
    job_manager.create_job jm (request_query request)
      (request_idempotency_key request) uuid4 now_created now_progress in
  let jm := threads_run (threads 0%nat) jm in
  let background_tasks :=
    if status_in (status (live jm (job_id job) job)) [PENDING; RETRY]
    then (background_tasks ++ [job_id job])%list
    else background_tasks in
  let jm := threads_run (threads 1%nat) jm in
  (Sent (JobResponse_of (to_dict (live jm (job_id job) job))), jm,
   background_tasks).

(** [get_job]. *)
Definition get_job (jm : JobManager) (id : string) : answer JobResponse :=
  match job_manager.get_job jm id with
  | None => Refused 404 "Job not found"
  | Some job => Sent (JobResponse_of (to_dict job))
  end.


(** [cancel_job].  The handler tests [job.status] itself, outside the lock,
    and [job_manager.cancel_job] tests it again under the lock.  [threads 0]
    are the calls of the background tasks that fall between [get_job] and the
    handler's test, [threads 1] those between the test and the handler's next
    look at the registry: the second read of [job.status] for the message, or
    the call of [job_manager.cancel_job]. *)
Definition cancel_job (jm : JobManager) (threads : nat -> list thread_call)
    (id : string) : answer pydict * JobManager :=
  match job_manager.get_job jm id with
  | None => (Refused 404 "Job not found", jm)
  | Some job =>
      let jm := threads_run (threads 0%nat) jm in
      if negb (JobStatus_eqb (status (live jm id job)) RUNNING)
      then
        let jm := threads_run (threads 1%nat) jm in
        (Refused 400
           ("Cannot cancel job with status: "
            ++ status_value (status (live jm id job))),
         jm)
      else
        let jm := threads_run (threads 1%nat) jm in
        let (success, jm) := job_manager.cancel_job jm id in
        if success
        then (Sent [("message", PyStr "Cancellation requested");
                    ("job_id", PyStr id)], jm)
        else (Refused 400 "Failed to cancel job", jm)
  end.

(** [delete_job].  A [KeyError] of the [del] would leave the handler as an
    unhandled exception, which the framework answers with a 500. *)
Definition delete_job (jm : JobManager) (id : string)
    : answer pydict * JobManager :=
  match job_manager.get_job jm id with
  | None => (Refused 404 "Job not found", jm)
  | Some job =>
      if JobStatus_eqb (status job) RUNNING
      then (Refused 400 "Cannot delete running job. Cancel it first.", jm)
      else
        match dict_del jm id with
        | Some jm' =>
            (Sent [("message", PyStr "Job deleted"); ("job_id", PyStr id)],
             jm')
        | None => (Refused 500 "Internal Server Error", jm)
        end
  end.

(** [get_job_logs]: the job id and its [execution_history]. *)
Definition get_job_logs (jm : JobManager) (id : string)
    : answer (string * list ExecutionRecord) :=
  match job_manager.get_job jm id with
  | None => Refused 404 "Job not found"
  | Some job => Sent (id, execution_history job)
  end.

End router.

End jobs.

(** ** shared/state.py *)
Module state.

Inductive JobStatus : Type := IDLE | RUNNING | COMPLETED | FAILED | STOPPED.

Inductive LogType : Type :=
| INFO | WARNING | ERROR | SUCCESS | TOOL | AGENT | MCP | STATUS | RAG.

Definition status_value (s : JobStatus) : string :=
  match s with
  | IDLE => "idle"
  | RUNNING => "running"
  | COMPLETED => "completed"
  | FAILED => "failed"
  | STOPPED => "stopped"
  end.

Definition type_value (t : LogType) : string :=
  match t with
  | INFO => "info"
  | WARNING => "warning"
  | ERROR => "error"
  | SUCCESS => "success"
  | TOOL => "tool"
  | AGENT => "agent"
  | MCP => "mcp"
  | STATUS => "status"
  | RAG => "rag"
  end.

(** One log entry, a dictionary with these five keys. *)
Record LogEntry : Type := mkLogEntry {
  log_timestamp : string;
  log_type : string;
  log_message : string;
  log_metadata : pydict;
  log_session_id : string
}.

Record SharedState : Type := mkSharedState {
  query : string;
  status : JobStatus;
  session_id : string;
  logs : list LogEntry;
  ingested_documents : list string;
  retrieved_documents : list pydict;
  document_count : Z;
  total_chunks : Z;
  web_results : list pydict;
  web_sources : list string;
  verified_citations : list pydict;
  citation_count : Z;
  pii_found : list pydict;
  pii_redacted_count : Z;
  compliance_report : option pydict;
  final_report : string;
  formatted_output : string;
  export_path : string;
  audit_log_path : string
}.

(** [SharedState(audit_log_path=...)] followed by [__post_init__]: an empty
    [session_id] is replaced by the clock's [strftime] text. *)
Definition SharedState_new (given_session_id audit_path : string)
    (now_strftime : string) : SharedState :=
  mkSharedState "" IDLE
    (if negb (String.eqb given_session_id "") then given_session_id
     else now_strftime)
    [] [] [] 0 0 [] [] [] 0 [] 0 None "" "" "" audit_path.

Definition set_logs (v : list LogEntry) (s : SharedState) : SharedState :=
  mkSharedState (query s) (status s) (session_id s) v (ingested_documents s)
    (retrieved_documents s) (document_count s) (total_chunks s)
    (web_results s) (web_sources s) (verified_citations s) (citation_count s)
    (pii_found s) (pii_redacted_count s) (compliance_report s)
    (final_report s) (formatted_output s) (export_path s) (audit_log_path s).

Definition set_status (v : JobStatus) (s : SharedState) : SharedState :=
  mkSharedState (query s) v (session_id s) (logs s) (ingested_documents s)
    (retrieved_documents s) (document_count s) (total_chunks s)
    (web_results s) (web_sources s) (verified_citations s) (citation_count s)
    (pii_found s) (pii_redacted_count s) (compliance_report s)
    (final_report s) (formatted_output s) (export_path s) (audit_log_path s).

(** What the file system does to one call of [_write_audit_log]:
    [os.makedirs] and the [open]/[write] pair each succeed ([None]) or
    raise. *)
Record Disk : Type := mkDisk {
  makedirs : option BaseException;
  open_write : option BaseException
}.

(** [SharedState._write_audit_log].  [file] holds the lines of this session's
    audit file, one entry a line.  [os.makedirs] is outside the [try]; an
    [Exception] of the write is logged and dropped. *)
Definition _write_audit_log (file : list LogEntry) (entry : LogEntry)
    (disk : Disk) : list LogEntry * option BaseException :=
  match makedirs disk with
  | Some e => (file, Some e)
  | None =>
      match open_write disk with
      | None => ((file ++ [entry])%list, None)
      | Some CancelledError => (file, Some CancelledError)
      | Some (OtherBaseException n m) => (file, Some (OtherBaseException n m))
      | Some (Exception _ _) => (file, None)
      end
  end.

(** [SharedState.add_log]; the console line is not modelled. *)
Definition add_log (self : SharedState) (file : list LogEntry)
    (message : string) (type : LogType) (metadata : option pydict)
    (now : string) (disk : Disk)
    : SharedState * list LogEntry * option BaseException :=
  let log_entry :=
    mkLogEntry now (type_value type) message
      (match metadata with
       | Some (x :: d) => x :: d
       | _ => []
       end)
      (session_id self) in
  let self := set_logs (logs self ++ [log_entry])%list self in
  let (file, exc) := _write_audit_log file log_entry disk in
  (self, file, exc).

(** [SharedState.update_status]. *)
Definition update_status (self : SharedState) (file : list LogEntry)
    (new_status : JobStatus) (message : string) (now : string) (disk : Disk)
    : SharedState * list LogEntry * option BaseException :=
  let self := set_status new_status self in
  let status_msg := "Status changed to: " ++ status_value new_status in
  let status_msg :=
    if negb (String.eqb message "") then status_msg ++ " - " ++ message
    else status_msg in
  add_log self file status_msg STATUS None now disk.

(** [SharedState.get_recent_logs]. *)
Definition get_recent_logs (self : SharedState) (count : Z) : list LogEntry :=
  slice_from (logs self) (- count).

(** [SharedState.clear_state]. *)
Definition clear_state (self : SharedState) (file : list LogEntry)
    (now : string) (disk : Disk)
    : SharedState * list LogEntry * option BaseException :=
  let self :=
    mkSharedState "" IDLE (session_id self) [] [] [] 0 0 [] [] [] 0 [] 0 None
      "" "" "" (audit_log_path self) in
  add_log self file "State cleared" INFO None now disk.

End state.

(** ** monitor_job.py *)
Module monitor_job.

(** [' '.join(l)]. *)
Fixpoint join (sep : string) (l : list string) : string :=
  match l with
  | [] => ""
  | [x] => x
  | x :: rest => x ++ sep ++ join sep rest
  end.

(** The local [all_stages] of [get_stage_indicator]. *)
Definition all_stages : list string :=
  ["initialization"; "document_retrieval"; "web_research";
   "citation_verification"; "compliance_check"; "report_generation";
   "finalization"].

(** The list [stage_symbols] that [get_stage_indicator] builds. *)
Definition stage_symbols (stages_completed : list string)
    (current_stage : string) : list string :=
  map (fun stage =>
         if job_manager.str_in stage stages_completed then "✓"
         else if String.eqb stage current_stage then "▶"
         else "○")
    all_stages.

(** [get_stage_indicator]. *)
Definition get_stage_indicator (stages_completed : list string)
    (current_stage : string) : string :=
  join " " (stage_symbols stages_completed current_stage).

(** [names.get(stage, stage)] on the dictionary of [get_stage_name]. *)
Definition get_stage_name (stage : string) : string :=
  if String.eqb stage "initialization" then "Initialization"
  else if String.eqb stage "document_retrieval" then "Document Retrieval"
  else if String.eqb stage "web_research" then "Web Research"
  else if String.eqb stage "citation_verification"
  then "Citation Verification"
  else if String.eqb stage "compliance_check" then "Compliance Check"
  else if String.eqb stage "report_generation" then "Report Generation"
  else if String.eqb stage "finalization" then "Finalization"
  else stage.

End monitor_job.

(** * Vocabulary of the statements *)

Import job_manager.
Import background_executor.
Import jobs.

(** a field of the entry stored under [id], when there is one. *)
Definition field {A : Type} (f : Job -> A) (jm : JobManager) (id : string)
    : option A :=
  option_map f (get_job jm id).

(** [COMPLETED] or [RUNNING]: the statuses [create_job] deduplicates on. *)
Definition active (s : JobStatus) : bool := status_in s [COMPLETED; RUNNING].

(** [mark_job_failed(id, err, allow_retry=True)] called once per element of
    [calls], each element giving the error text and the clock reading. *)
Definition mark_failed_repeatedly (jm : JobManager) (id : string)
    (calls : list (string * string)) : JobManager :=
  fold_left (fun jm call => mark_job_failed jm id (fst call) true (snd call))
    calls jm.

(** [percentage] as [update] computes it from the two counters. *)
Definition percent_of (completed total : Z) : float :=
  PrimFloat.mul (PrimFloat.div (float_of_Z completed) (float_of_Z total))
    (float_of_Z 100).

(** The state every progress record is in between two calls of [update]: the
    dataclass defaults establish it and [update] keeps it. *)
Record progress_consistent (p : JobProgress) : Prop := {
  pc_total : total_stages p = 7;
  pc_count : completed_stages p = Z.of_nat (List.length (stages_completed p));
  pc_nodup : NoDup (stages_completed p);
  pc_names : incl (stages_completed p) (map stage_value all_stages);
  pc_percentage :
    percentage p = percent_of (completed_stages p) (total_stages p)
}.

(** [update_job_progress] called once per element of [calls] (stage, operation
    text, clock reading); the percentages read after each call. *)
Fixpoint percentages_after (jm : JobManager) (id : string)
    (calls : list (JobStage * string * string)) : list (option float) :=
  match calls with
  | [] => []
  | (stage, operation, now) :: rest =>
      let jm' := fst (update_job_progress jm id stage operation now) in
      field (fun j => percentage (progress j)) jm' id
        :: percentages_after jm' id rest
  end.

(** The readings of [percentages_after] never go down from [start]. *)
Fixpoint nondecreasing_from (start : float) (l : list (option float)) : Prop :=
  match l with
  | [] => True
  | Some x :: rest => PrimFloat.leb start x = true /\ nondecreasing_from x rest
  | None :: _ => False
  end.

(** A job is created, started, and marked completed twice. *)
Definition completed_twice : JobManager * JobManager :=
  let jm := snd (create_job [] "X" None "job-1" "2024-05-01T10:00:00"
                   "2024-05-01T10:00:00") in
  let jm := update_job_status jm "job-1" RUNNING "2024-05-01T10:00:01" in
  let jm1 := mark_job_completed jm "job-1" [] "2024-05-01T10:00:30" in
  let jm2 := mark_job_completed jm1 "job-1" [] "2024-05-01T10:00:45" in
  (jm1, jm2).

(** Two clients post with the empty string as key; the first job is running
    when the second call arrives.  The pair is what each call returned; the
    registry is the one after the second call. *)
Definition empty_key_twice : Job * Job * JobManager :=
  let (job1, jm) := create_job [] "X" (Some "") "job-1" "t0" "t0" in
  let jm := update_job_status jm "job-1" RUNNING "t1" in
  let (job2, jm) := create_job jm "X" (Some "") "job-2" "t2" "t2" in
  (job1, job2, jm).

(** Two posts with the key "k" arrive before either job has started (both are
    created), then both jobs run and a third post arrives. *)
Definition same_key_both_running : Job * Job * Job * JobManager :=
  let (job1, jm) := create_job [] "X" (Some "k") "job-1" "t0" "t0" in
  let (job2, jm) := create_job jm "X" (Some "k") "job-2" "t1" "t1" in
  let jm := update_job_status jm "job-1" RUNNING "t2" in
  let jm := update_job_status jm "job-2" RUNNING "t3" in
  let (job3, jm) := create_job jm "X" (Some "k") "job-3" "t4" "t4" in
  (job1, job2, job3, jm).

(** As before, but the first job has been cancelled when the third post
    arrives. *)
Definition same_key_first_cancelled : Job * Job * Job * JobManager :=
  let (job1, jm) := create_job [] "X" (Some "k") "job-1" "t0" "t0" in
  let (job2, jm) := create_job jm "X" (Some "k") "job-2" "t1" "t1" in
  let jm := update_job_status jm "job-1" RUNNING "t2" in
  let jm := update_job_status jm "job-2" RUNNING "t3" in
  let jm := update_job_status jm "job-1" CANCELLED "t4" in
  let (job3, jm) := create_job jm "X" (Some "k") "job-3" "t5" "t5" in
  (job1, job2, job3, jm).

(** *** The runner *)

(** The other contexts do nothing while the runner is suspended. *)
Definition quiet : nat -> JobManager -> JobManager := fun _ jm => jm.

(** A client's cancel request for [id] is served while the runner is suspended
    at its [k]-th [await]; nothing else happens. *)
Definition cancel_during (k : nat) (id : string)
    : nat -> JobManager -> JobManager :=
  fun n jm => if Nat.eqb n k then snd (cancel_job jm id) else jm.

(** The entry under [id] exists and satisfies [P]. *)
Definition holds (id : string) (P : Job -> Prop) (w : World) : Prop :=
  exists job, get_job (registry w) id = Some job /\ P job.


(** From every world satisfying [P], [m] returns a value (it does not raise)
    and the value and the world it leaves satisfy [Q]. *)
Definition triple {A : Type} (P : World -> Prop) (m : Run A)
    (Q : A -> World -> Prop) : Prop :=
  forall w, P w -> exists a w', m w = (Returned a, w') /\ Q a w'.

(** The world right after [execute_job] has marked the job RUNNING, where the
    [try] block starts. *)
Definition started (clock : nat -> string) (id : string) (w : World) : World :=
  mkWorld (update_job_status (registry w) id RUNNING (clock (instant w)))
    (S (instant w)) (awaits w).

(** A clock that always reads the same time. *)
Definition wall_clock : nat -> string := fun _ => "2024-05-01T10:00:00".

(** A new job [job-1] with the query [q], in an otherwise empty registry. *)
Definition fresh_world (q : string) : World :=
  mkWorld (snd (create_job [] q None "job-1" "t0" "t0")) 0 0.

(** The run of a new job during which one cancel request is served, at the
    runner's [k]-th [await]; the collaborator works and returns [res]. *)
Definition run_cancelled_during (clock : nat -> string) (q : string)
    (res : pydict) (k : nat) : outcome pydict * World :=
  execute_job clock (cancel_during k "job-1") None (fun _ => Returned res)
    "job-1" (fresh_world q).

(** A new job is run twice by [execute_job_wrapper], the collaborator raising
    [Exception n m] both times; the worlds after the first and the second
    run. *)
Definition failing_twice (q n m : string) : World * World :=
  let fail := fun _ : string => @Raised pydict (Exception n m) in
  let w1 := snd (execute_job_wrapper wall_clock quiet None fail "job-1"
                   (fresh_world q)) in
  let w2 := snd (execute_job_wrapper wall_clock quiet None fail "job-1" w1) in
  (w1, w2).


(** *** The registry as a whole *)

(** Ids are unique and every job is stored under its own [job_id]. *)
Definition registry_wf (jm : JobManager) : Prop :=
  NoDup (map fst jm) /\
  forall k job, In (k, job) jm -> job_id job = k.

(** The fields of a job that identify it and its request. *)
Definition same_identity (job job' : Job) : Prop :=
  job_id job' = job_id job /\
  query job' = query job /\
  created_at job' = created_at job /\
  idempotency_key job' = idempotency_key job /\
  max_retries job' = max_retries job.

(** [jm'] differs from [jm] at most in the entry of [id], which keeps its
    place and its identity; a registry without [id] is left as it is. *)
Definition touches_only (id : string) (jm jm' : JobManager) : Prop :=
  map fst jm' = map fst jm /\
  (forall id', id' <> id -> get_job jm' id' = get_job jm id') /\
  (forall job, get_job jm id = Some job ->
     exists job', get_job jm' id = Some job' /\ same_identity job job') /\
  (get_job jm id = None -> jm' = jm).

(** The jobs [cleanup_old_jobs] keeps when no timestamp is rejected. *)
Definition kept (age_hours : string -> float + BaseException)
    (max_age_hours : Z) (entry : string * Job) : bool :=
  match expired age_hours max_age_hours (snd entry) with
  | inl old => negb old
  | inr _ => true
  end.

(** The number a [float] stands for, when it is one: [(-1)^s * m * 2^e]. *)
Definition float_exact (x : float) : option Q :=
  match Prim2SF x with
  | S754_zero _ => Some 0%Q
  | S754_finite s m e =>
      Some (inject_Z (if s then Z.neg m else Z.pos m) * inject_Z 2 ^ e)%Q
  | S754_infinity _ => None
  | S754_nan => None
  end.

(** An age in hours that is more than [max_age_hours]: a number above it, or
    plus infinity. *)
Definition older_than (age : float) (max_age_hours : Z) : Prop :=
  Prim2SF age = S754_infinity false \/
  exists v, float_exact age = Some v /\ (inject_Z max_age_hours < v)%Q.

(** A job the sweep has to remove: finished, with a completion time on record
    that lies more than [max_age_hours] back. *)
Definition finished_long_ago (age_hours : string -> float + BaseException)
    (max_age_hours : Z) (job : Job) : Prop :=
  status_in (status job) [COMPLETED; FAILED; CANCELLED] = true /\
  exists t age,
    completed_at job = Some t /\ t <> "" /\
    age_hours t = inl age /\ older_than age max_age_hours.

(** *** Runs that fail or are cancelled *)


(** Whatever [m] raises, from any state, is one of [S]. *)
Definition may_raise {A : Type} (m : Run A) (S : BaseException -> Prop)
    : Prop :=
  forall w e w', m w = (Raised e, w') -> S e.

(** An exception that [ResearchAgent()] or [run_research] raised. *)
Definition from_collaborator (ResearchAgent_init : option BaseException)
    (run_research : string -> outcome pydict) (e : BaseException) : Prop :=
  ResearchAgent_init = Some e \/ exists q, run_research q = Raised e.

(** What can leave the [try] block of [execute_job]: an [Exception], or
    whatever the collaborator raised. *)
Definition body_exception (ResearchAgent_init : option BaseException)
    (run_research : string -> outcome pydict) (e : BaseException) : Prop :=
  (exists n m, e = Exception n m) \/
  from_collaborator ResearchAgent_init run_research e.

(** What a run leaves alone until it ends: the job's identity, its retry
    count, its result, its error and its completion time. *)
Definition untouched (job0 job : Job) : Prop :=
  same_identity job0 job /\
  retry_count job = retry_count job0 /\
  result job = result job0 /\
  error job = error job0 /\
  completed_at job = completed_at job0.

(** The job in the middle of a run started on [job0]: [flag] is its
    cancellation flag, [stages] the stages in its history, and [Pp] what is
    known of its progress record. *)
Definition running (job0 : Job) (flag : bool) (Pp : JobProgress -> Prop)
    (stages : list string) (job : Job) : Prop :=
  cancellation_requested job = flag /\
  total_stages (progress job) <> 0 /\
  map stage (execution_history job) = stages /\
  untouched job0 job /\
  Pp (progress job).

(** A consistent progress record in which the stages [done] are recorded. *)
Definition recorded (done : list string) (p : JobProgress) : Prop :=
  progress_consistent p /\ incl done (stages_completed p).

(** The run of a new job during which one cancel request is served, at the
    runner's [k]-th [await], with any collaborator. *)
Definition run_with_cancel (clock : nat -> string)
    (ResearchAgent_init : option BaseException)
    (run_research : string -> outcome pydict) (q : string) (k : nat)
    : outcome pydict * World :=
  execute_job clock (cancel_during k "job-1") ResearchAgent_init run_research
    "job-1" (fresh_world q).

(** * Properties of the registry *)

Section DictFacts.

Lemma dict_get_set_same (d : JobManager) (k : string) (v : Job) :
  dict_get (dict_set d k v) k = Some v.
Proof.
  induction d as [|[k' v'] d IH]; simpl.
  - now rewrite String.eqb_refl.
  - destruct (String.eqb k' k) eqn:E; simpl.
    + now rewrite String.eqb_refl.
    + now rewrite E.
Qed.

Lemma dict_get_set_other (d : JobManager) (k k' : string) (v : Job) :
  k' <> k -> dict_get (dict_set d k v) k' = dict_get d k'.
Proof.
  intros Hne. induction d as [|[k0 v0] d IH]; simpl.
  - destruct (String.eqb k k') eqn:E; [|reflexivity].
    apply String.eqb_eq in E. congruence.
  - destruct (String.eqb k0 k) eqn:E; simpl.
    + apply String.eqb_eq in E. subst k0.
      destruct (String.eqb k k') eqn:E'; [|reflexivity].
      apply String.eqb_eq in E'. congruence.
    + destruct (String.eqb k0 k'); [reflexivity | exact IH].
Qed.

Lemma dict_set_fresh (d : JobManager) (k : string) (v : Job) :
  dict_get d k = None -> dict_set d k v = (d ++ [(k, v)])%list.
Proof.
  induction d as [|[k' v'] d IH]; simpl; [reflexivity|].
  destruct (String.eqb k' k); [discriminate|].
  intros H. now rewrite IH.
Qed.

Lemma dict_set_present_length (d : JobManager) (k : string) (v v' : Job) :
  dict_get d k = Some v -> List.length (dict_set d k v') = List.length d.
Proof.
  induction d as [|[k0 v0] d IH]; simpl; [discriminate|].
  destruct (String.eqb k0 k); simpl; [reflexivity|].
  intros H. now rewrite IH.
Qed.

Lemma dict_get_In (d : JobManager) (k : string) (v : Job) :
  dict_get d k = Some v -> In v (dict_values d).
Proof.
  induction d as [|[k0 v0] d IH]; simpl; [discriminate|].
  destruct (String.eqb k0 k).
  - intros [= ->]. now left.
  - intros H. right. now apply IH.
Qed.

Lemma with_job_get_same (d : JobManager) (k : string) (f : Job -> Job) :
  get_job (with_job d k f) k = option_map f (get_job d k).
Proof.
  unfold with_job, get_job. destruct (dict_get d k) eqn:E; simpl.
  - apply dict_get_set_same.
  - exact E.
Qed.

Lemma with_job_get_other (d : JobManager) (k k' : string) (f : Job -> Job) :
  k' <> k -> get_job (with_job d k f) k' = get_job d k'.
Proof.
  intros Hne. unfold with_job, get_job. destruct (dict_get d k); [|reflexivity].
  now apply dict_get_set_other.
Qed.

Lemma with_job_absent (d : JobManager) (k : string) (f : Job -> Job) :
  get_job d k = None -> with_job d k f = d.
Proof. unfold with_job, get_job. now intros ->. Qed.

Lemma JobStatus_eqb_eq (a b : JobStatus) : JobStatus_eqb a b = true <-> a = b.
Proof. destruct a, b; simpl; split; congruence. Qed.

End DictFacts.

(** ** Cancellation requests *)

(** C6. [cancel_job] answers [True] exactly when the job exists and is
    RUNNING; it then sets [cancellation_requested] on that entry and touches
    nothing else.  In every other case (another status, or an unknown id) it
    answers [False] and the registry is unchanged. *)
Theorem cancel_job_only_when_running (jm : JobManager) (id : string) :
  (fst (cancel_job jm id) = true <->
     exists job, get_job jm id = Some job /\ status job = RUNNING) /\
  (forall job, get_job jm id = Some job -> status job = RUNNING ->
     fst (cancel_job jm id) = true /\
     get_job (snd (cancel_job jm id)) id
       = Some (set_cancellation_requested true job) /\
     is_cancellation_requested (snd (cancel_job jm id)) id = true /\
     (forall id', id' <> id ->
        get_job (snd (cancel_job jm id)) id' = get_job jm id')) /\
  ((forall job, get_job jm id = Some job -> status job <> RUNNING) ->
     cancel_job jm id = (false, jm)).
Proof.
  unfold cancel_job, is_cancellation_requested, get_job.
  destruct (dict_get jm id) as [job|] eqn:E.
  - destruct (JobStatus_eqb (status job) RUNNING) eqn:R; simpl.
    + apply JobStatus_eqb_eq in R. split; [|split].
      * split; [intros _; now exists job | reflexivity].
      * intros j [= <-] _. rewrite dict_get_set_same.
        split; [reflexivity|]. split; [reflexivity|]. split; [reflexivity|].
        intros id' Hne. now apply dict_get_set_other.
      * intros H. exfalso. now apply (H job).
    + assert (status job <> RUNNING) as Hn
        by (intros C; apply JobStatus_eqb_eq in C; congruence).
      split; [|split].
      * split; [discriminate|]. intros (j & [= <-] & C). contradiction.
      * intros j [= <-] C. contradiction.
      * reflexivity.
  - simpl. split; [|split].
    + split; [discriminate|]. intros (j & C & _). discriminate.
    + intros j C. discriminate.
    + reflexivity.
Qed.

(** ** Creation *)

(** C7. Right after [create_job(q)] (no idempotency key), [get_job] on the
    returned job's id gives that very record: PENDING, with the query [q], no
    result, no error and a retry count of zero. *)
Theorem get_after_create (jm : JobManager) (q uuid4 t1 t2 : string) :
  let job := fst (create_job jm q None uuid4 t1 t2) in
  let jm' := snd (create_job jm q None uuid4 t1 t2) in
  get_job jm' (job_id job) = Some job /\
  status job = PENDING /\
  query job = q /\
  result job = None /\
  error job = None /\
  retry_count job = 0.
Proof.
  unfold create_job, get_job. simpl.
  rewrite dict_get_set_same. repeat split; reflexivity.
Qed.

(** ** Failure and the retry budget *)

Section RetryBudget.

Variable id : string.

Lemma mark_job_failed_entry (jm : JobManager) (job : Job)
    (err : string) (allow : bool) (now : string) :
  get_job jm id = Some job ->
  get_job (mark_job_failed jm id err allow now) id =
    Some (if allow && Z.ltb (retry_count job) (max_retries job)
          then set_retry_count (retry_count job + 1)
                 (set_status RETRY (set_error (Some err) job))
          else set_completed_at (Some now)
                 (set_status FAILED (set_error (Some err) job))).
Proof.
  intros H. unfold mark_job_failed. rewrite with_job_get_same, H. reflexivity.
Qed.

Lemma mark_failed_repeatedly_exhausts (calls : list (string * string)) :
  forall (jm : JobManager) (job : Job),
    get_job jm id = Some job ->
    retry_count job <= max_retries job ->
    max_retries job - retry_count job < Z.of_nat (List.length calls) ->
    exists job',
      get_job (mark_failed_repeatedly jm id calls) id = Some job' /\
      status job' = FAILED /\
      retry_count job' = max_retries job /\
      max_retries job' = max_retries job /\
      completed_at job' = Some (snd (last calls ("", ""))).
Proof.
  induction calls as [|call rest IH]; intros jm job Hget Hle Hlen.
  - simpl in Hlen. lia.
  - unfold mark_failed_repeatedly. cbn [fold_left].
    pose proof (mark_job_failed_entry jm job (fst call) true (snd call) Hget)
      as Hstep.
    cbn [andb] in Hstep.
    destruct (Z.ltb (retry_count job) (max_retries job)) eqn:Hlt.
    + apply Z.ltb_lt in Hlt.
      destruct rest as [|call' rest'].
      * cbn [List.length] in Hlen. lia.
      * destruct (IH _ _ Hstep) as (job' & G & S1 & S2 & S3 & S4).
        { cbn. lia. }
        { cbn [List.length] in *. cbn [retry_count max_retries set_retry_count
            set_status set_error]. lia. }
        exists job'. repeat split; try assumption.
    + apply Z.ltb_ge in Hlt.
      destruct rest as [|call' rest'].
      * cbn [fold_left]. eexists. split; [exact Hstep|].
        cbn. repeat split; try reflexivity. lia.
      * destruct (IH _ _ Hstep) as (job' & G & S1 & S2 & S3 & S4).
        { cbn. lia. }
        { cbn [List.length]. cbn [retry_count max_retries set_completed_at
            set_status set_error]. lia. }
        exists job'. repeat split; try assumption.
Qed.

(** C2. [mark_job_failed] with [allow_retry=True] and retries left sets RETRY
    and adds one to [retry_count] without touching [completed_at]; with the
    budget used up, or with [allow_retry=False], it sets FAILED and writes
    [completed_at].  Hence [max_retries + 1] calls in a row with
    [allow_retry=True] leave the job FAILED with
    [retry_count = max_retries]. *)
Theorem mark_failed_retry_bound (jm : JobManager) (job : Job) :
  get_job jm id = Some job ->
  (forall err now, retry_count job < max_retries job ->
     exists job',
       get_job (mark_job_failed jm id err true now) id = Some job' /\
       status job' = RETRY /\
       retry_count job' = retry_count job + 1 /\
       completed_at job' = completed_at job /\
       max_retries job' = max_retries job) /\
  (forall err allow now,
     allow = false \/ max_retries job <= retry_count job ->
     exists job',
       get_job (mark_job_failed jm id err allow now) id = Some job' /\
       status job' = FAILED /\
       completed_at job' = Some now /\
       retry_count job' = retry_count job) /\
  (0 <= retry_count job <= max_retries job ->
   forall calls : list (string * string),
     Z.of_nat (List.length calls) = max_retries job + 1 ->
     exists job',
       get_job (mark_failed_repeatedly jm id calls) id = Some job' /\
       status job' = FAILED /\
       retry_count job' = max_retries job /\
       completed_at job' = Some (snd (last calls ("", "")))).
Proof.
  intros Hget. split; [|split].
  - intros err now Hlt.
    pose proof (mark_job_failed_entry jm job err true now Hget) as Hstep.
    apply Z.ltb_lt in Hlt. rewrite Hlt in Hstep. cbn [andb] in Hstep.
    eexists. split; [exact Hstep|]. repeat split.
  - intros err allow now Hcase.
    pose proof (mark_job_failed_entry jm job err allow now Hget) as Hstep.
    assert (allow && Z.ltb (retry_count job) (max_retries job) = false) as E.
    { destruct Hcase as [-> | Hge]; [reflexivity|].
      apply Z.ltb_ge in Hge. rewrite Hge. apply andb_false_r. }
    rewrite E in Hstep.
    eexists. split; [exact Hstep|]. repeat split.
  - intros [H0 Hle] calls Hlen.
    destruct (mark_failed_repeatedly_exhausts calls jm job Hget Hle)
      as (job' & G & S1 & S2 & _ & S4); [lia|].
    exists job'. repeat split; assumption.
Qed.

End RetryBudget.

(** The default job, failed four times in a row. *)
Lemma mark_failed_retry_bound_witness :
  let job := Job_new "job-1" "X" None "t0" "t0" in
  let jm := [("job-1", job)] in
  let calls := [("e1", "t1"); ("e2", "t2"); ("e3", "t3"); ("e4", "t4")] in
  get_job jm "job-1" = Some job /\
  exists job',
    get_job (mark_failed_repeatedly jm "job-1" calls) "job-1" = Some job' /\
    status job' = FAILED /\
    retry_count job' = max_retries job /\
    completed_at job' = Some "t4".
Proof.
  cbv zeta.
  split; [reflexivity|].
  refine (proj2 (proj2 (mark_failed_retry_bound "job-1"
            [("job-1", Job_new "job-1" "X" None "t0" "t0")]
            (Job_new "job-1" "X" None "t0" "t0") eq_refl)) _
            [("e1", "t1"); ("e2", "t2"); ("e3", "t3"); ("e4", "t4")] _).
  - simpl. lia.
  - reflexivity.
Defined.

(** ** Timestamps *)

Section Timestamps.

Variable id : string.

Lemma update_job_status_entry (jm : JobManager) (job : Job)
    (st : JobStatus) (now : string) :
  get_job jm id = Some job ->
  get_job (update_job_status jm id st now) id =
    Some (if JobStatus_eqb st RUNNING && negb (truthy (started_at job))
          then set_started_at (Some now) (set_status st job)
          else if status_in st [COMPLETED; FAILED; CANCELLED]
          then set_completed_at (Some now) (set_status st job)
          else set_status st job).
Proof.
  intros H. unfold update_job_status. rewrite with_job_get_same, H. reflexivity.
Qed.

Lemma mark_job_completed_entry (jm : JobManager) (job : Job)
    (res : pydict) (now : string) :
  get_job jm id = Some job ->
  get_job (mark_job_completed jm id res now) id =
    Some (set_progress (set_percentage 100%float (progress job))
            (set_completed_at (Some now)
               (set_result (Some res) (set_status COMPLETED job)))).
Proof.
  intros H. unfold mark_job_completed. rewrite with_job_get_same, H.
  reflexivity.
Qed.

Lemma update_job_progress_entry (jm : JobManager) (job : Job)
    (stage : JobStage) (operation now : string) :
  get_job jm id = Some job ->
  get_job (fst (update_job_progress jm id stage operation now)) id =
    Some (set_progress (fst (update (progress job) stage operation now)) job)
  /\ snd (update_job_progress jm id stage operation now) =
       snd (update (progress job) stage operation now).
Proof.
  unfold update_job_progress, get_job. intros ->.
  destruct (update (progress job) stage operation now) as [p exc]. simpl.
  split; [apply dict_get_set_same | reflexivity].
Qed.

(** C3, as the code has it. [completed_at] is overwritten by every transition
    into a terminal status, whichever call makes it ([update_job_status] to
    COMPLETED, FAILED or CANCELLED, [mark_job_completed], and a
    [mark_job_failed] that does not retry), so it holds the time of the latest
    one: a second [mark_job_completed] replaces the first call's timestamp.
    No other registry call changes it.  [started_at] is written only by a
    transition into RUNNING made while it is still unset; no other registry
    call changes it. *)
Theorem completed_at_latest_started_at_first (jm : JobManager) (job : Job) :
  get_job jm id = Some job ->
  (forall st now, status_in st [COMPLETED; FAILED; CANCELLED] = true ->
     field completed_at (update_job_status jm id st now) id
       = Some (Some now)) /\
  (forall st now, status_in st [COMPLETED; FAILED; CANCELLED] = false ->
     field completed_at (update_job_status jm id st now) id
       = Some (completed_at job)) /\
  (forall res now,
     field completed_at (mark_job_completed jm id res now) id
       = Some (Some now)) /\
  (forall res1 res2 t1 t2,
     field completed_at
       (mark_job_completed (mark_job_completed jm id res1 t1) id res2 t2) id
       = Some (Some t2)) /\
  (forall err allow now,
     allow = false \/ max_retries job <= retry_count job ->
     field completed_at (mark_job_failed jm id err allow now) id
       = Some (Some now)) /\
  (forall err now,
     retry_count job < max_retries job ->
     field completed_at (mark_job_failed jm id err true now) id
       = Some (completed_at job)) /\
  (forall stage operation now,
     field completed_at
       (fst (update_job_progress jm id stage operation now)) id
       = Some (completed_at job)) /\
  field completed_at (snd (cancel_job jm id)) id = Some (completed_at job) /\
  (forall now,
     field started_at (update_job_status jm id RUNNING now) id
       = Some (if truthy (started_at job) then started_at job
               else Some now)) /\
  (forall st now, st <> RUNNING ->
     field started_at (update_job_status jm id st now) id
       = Some (started_at job)) /\
  (forall res now,
     field started_at (mark_job_completed jm id res now) id
       = Some (started_at job)) /\
  (forall err allow now,
     field started_at (mark_job_failed jm id err allow now) id
       = Some (started_at job)) /\
  (forall stage operation now,
     field started_at (fst (update_job_progress jm id stage operation now)) id
       = Some (started_at job)) /\
  field started_at (snd (cancel_job jm id)) id = Some (started_at job).
Proof.
  intros Hget. unfold field.
  repeat match goal with |- _ /\ _ => split end.
  - intros st now Hst. rewrite (update_job_status_entry _ _ st now Hget).
    destruct st; try discriminate Hst; simpl; reflexivity.
  - intros st now Hst. rewrite (update_job_status_entry _ _ st now Hget).
    destruct st; try discriminate Hst; simpl;
      destruct (truthy (started_at job)); reflexivity.
  - intros res now. now rewrite (mark_job_completed_entry _ _ res now Hget).
  - intros res1 res2 t1 t2.
    pose proof (mark_job_completed_entry _ _ res1 t1 Hget) as H1.
    now rewrite (mark_job_completed_entry _ _ res2 t2 H1).
  - intros err allow now Hterminal.
    rewrite (mark_job_failed_entry id _ _ err allow now Hget). simpl.
    assert (allow && Z.ltb (retry_count job) (max_retries job) = false) as ->.
    { destruct Hterminal as [-> | Hle]; [reflexivity|].
      apply andb_false_iff. right. now apply Z.ltb_ge. }
    reflexivity.
  - intros err now Hlt.
    rewrite (mark_job_failed_entry id _ _ err true now Hget). simpl.
    apply Z.ltb_lt in Hlt. now rewrite Hlt.
  - intros stage operation now.
    destruct (update_job_progress_entry _ _ stage operation now Hget) as [E _].
    now rewrite E.
  - unfold cancel_job. unfold get_job in Hget. rewrite Hget.
    destruct (JobStatus_eqb (status job) RUNNING); simpl.
    + unfold get_job. now rewrite dict_get_set_same.
    + unfold get_job. now rewrite Hget.
  - intros now. rewrite (update_job_status_entry _ _ RUNNING now Hget). simpl.
    destruct (truthy (started_at job)); reflexivity.
  - intros st now Hst. rewrite (update_job_status_entry _ _ st now Hget).
    destruct st; try congruence; reflexivity.
  - intros res now. now rewrite (mark_job_completed_entry _ _ res now Hget).
  - intros err allow now.
    rewrite (mark_job_failed_entry id _ _ err allow now Hget). simpl.
    destruct (allow && Z.ltb (retry_count job) (max_retries job)); reflexivity.
  - intros stage operation now.
    destruct (update_job_progress_entry _ _ stage operation now Hget) as [E _].
    now rewrite E.
  - unfold cancel_job. unfold get_job in Hget. rewrite Hget.
    destruct (JobStatus_eqb (status job) RUNNING); simpl.
    + unfold get_job. now rewrite dict_get_set_same.
    + unfold get_job. now rewrite Hget.
Qed.

End Timestamps.

(** C3, as stated, fails: the second [mark_job_completed] on a COMPLETED job
    replaces the first call's [completed_at]. *)
Lemma completed_at_overwritten :
  field status (fst completed_twice) "job-1" = Some COMPLETED /\
  field completed_at (fst completed_twice) "job-1"
    = Some (Some "2024-05-01T10:00:30") /\
  field completed_at (snd completed_twice) "job-1"
    = Some (Some "2024-05-01T10:00:45").
Proof. repeat split; reflexivity. Qed.

Lemma completed_at_latest_started_at_first_witness :
  let job := Job_new "job-1" "X" None "t0" "t0" in
  let jm := [("job-1", job)] in
  get_job jm "job-1" = Some job /\
  field completed_at
    (mark_job_completed (mark_job_completed jm "job-1" [] "t1") "job-1" [] "t2")
    "job-1" = Some (Some "t2").
Proof.
  cbv zeta. split; [reflexivity|].
  exact (proj1 (proj2 (proj2 (proj2
           (completed_at_latest_started_at_first "job-1"
              [("job-1", Job_new "job-1" "X" None "t0" "t0")]
              (Job_new "job-1" "X" None "t0" "t0") eq_refl))))
           [] [] "t1" "t2").
Defined.

(** ** Progress *)

Section Progress.

Lemma str_in_In (v : string) (l : list string) : str_in v l = true <-> In v l.
Proof.
  unfold str_in. rewrite existsb_exists. split.
  - intros (x & Hin & E). apply String.eqb_eq in E. now subst.
  - intros Hin. exists v. split; [assumption | apply String.eqb_refl].
Qed.

Lemma stage_value_known (s : JobStage) :
  In (stage_value s) (map stage_value all_stages).
Proof. apply in_map. destruct s; simpl; tauto. Qed.

Lemma consistent_count_bounds (p : JobProgress) :
  progress_consistent p -> 0 <= completed_stages p <= 7.
Proof.
  intros C. rewrite (pc_count p C).
  pose proof (NoDup_incl_length (pc_nodup p C) (pc_names p C)) as L.
  rewrite length_map in L. simpl in L. lia.
Qed.

Lemma percent_of_le_self (c : Z) :
  0 <= c <= 7 -> PrimFloat.leb (percent_of c 7) (percent_of c 7) = true.
Proof.
  intros H.
  assert (c = 0 \/ c = 1 \/ c = 2 \/ c = 3 \/ c = 4 \/ c = 5 \/ c = 6 \/ c = 7)
    as Hc by lia.
  repeat (destruct Hc as [-> | Hc]; [reflexivity|]). now subst.
Qed.

Lemma percent_of_le_next (c : Z) :
  0 <= c < 7 -> PrimFloat.leb (percent_of c 7) (percent_of (c + 1) 7) = true.
Proof.
  intros H.
  assert (c = 0 \/ c = 1 \/ c = 2 \/ c = 3 \/ c = 4 \/ c = 5 \/ c = 6)
    as Hc by lia.
  repeat (destruct Hc as [-> | Hc]; [reflexivity|]). now subst.
Qed.

(** One call of [JobProgress.update] on a consistent record. *)
Lemma update_consistent (p : JobProgress) (stage : JobStage)
    (operation now : string) :
  progress_consistent p ->
  snd (update p stage operation now) = None /\
  progress_consistent (fst (update p stage operation now)) /\
  ((In (stage_value stage) (stages_completed p) /\
    stages_completed (fst (update p stage operation now))
      = stages_completed p /\
    completed_stages (fst (update p stage operation now))
      = completed_stages p) \/
   (~ In (stage_value stage) (stages_completed p) /\
    stages_completed (fst (update p stage operation now))
      = (stages_completed p ++ [stage_value stage])%list /\
    completed_stages (fst (update p stage operation now))
      = completed_stages p + 1)) /\
  PrimFloat.leb (percentage p)
    (percentage (fst (update p stage operation now))) = true.
Proof.
  intros C. pose proof (consistent_count_bounds p C) as B.
  destruct C as [Ht Hc Hnd Hnm Hp].
  unfold update. rewrite Ht. unfold py_truediv. cbn [Z.eqb].
  destruct (str_in (stage_value stage) (stages_completed p)) eqn:E; cbn [fst snd].
  - apply str_in_In in E.
    split; [reflexivity|]. split; [|split].
    + constructor; cbn; first [assumption | reflexivity].
    + left. cbn. auto.
    + cbn. rewrite Hp, Ht. apply percent_of_le_self. exact B.
  - assert (~ In (stage_value stage) (stages_completed p)) as Hnin.
    { intros Hin. apply str_in_In in Hin. congruence. }
    assert (NoDup (stages_completed p ++ [stage_value stage])) as Hnd'.
    { apply NoDup_app; [assumption | repeat constructor; intros [] |].
      intros x Hx [<- | []]. contradiction. }
    assert (incl (stages_completed p ++ [stage_value stage])
              (map stage_value all_stages)) as Hnm'.
    { apply incl_app; [assumption|].
      intros x [<- | []]. apply stage_value_known. }
    assert (Z.of_nat (List.length (stages_completed p ++ [stage_value stage]))
            = completed_stages p + 1) as Hlen.
    { rewrite length_app. cbn [List.length]. lia. }
    pose proof (NoDup_incl_length Hnd' Hnm') as L.
    rewrite length_map in L. cbn [List.length all_stages] in L.
    split; [reflexivity|]. split; [|split].
    + constructor; cbn; first [assumption | reflexivity].
    + right. cbn. auto.
    + cbn. rewrite Hp, Ht, Hlen. apply percent_of_le_next.
      rewrite length_app in L. cbn [List.length] in L. lia.
Qed.

Lemma percentages_nondecreasing (id : string)
    (calls : list (JobStage * string * string)) :
  forall (jm : JobManager) (job : Job),
    get_job jm id = Some job ->
    progress_consistent (progress job) ->
    nondecreasing_from (percentage (progress job))
      (percentages_after jm id calls).
Proof.
  induction calls as [|[[stage operation] now] rest IH]; intros jm job Hget C.
  - exact I.
  - cbn [percentages_after].
    destruct (update_job_progress_entry id jm job stage operation now Hget)
      as [E _].
    destruct (update_consistent (progress job) stage operation now C)
      as (_ & C' & _ & Hle).
    unfold field. rewrite E. cbn [option_map nondecreasing_from].
    split; [exact Hle|].
    exact (IH _ _ E C').
Qed.

(** C5. On a job whose progress record is consistent, [update_job_progress]
    raises nothing and keeps the record consistent; [completed_stages] stays
    as it is when the stage is already recorded and grows by one otherwise
    (so no stage is recorded twice); [percentage] is
    [completed_stages / total_stages * 100] afterwards and is not below its
    previous value; and over any sequence of calls the percentages read never
    go down. *)
Theorem progress_never_regresses (jm : JobManager) (id : string) (job : Job)
    (stage : JobStage) (operation now : string) :
  get_job jm id = Some job ->
  progress_consistent (progress job) ->
  snd (update_job_progress jm id stage operation now) = None /\
  (exists job',
     get_job (fst (update_job_progress jm id stage operation now)) id
       = Some job' /\
     progress_consistent (progress job') /\
     ((In (stage_value stage) (stages_completed (progress job)) /\
       completed_stages (progress job') = completed_stages (progress job)) \/
      (~ In (stage_value stage) (stages_completed (progress job)) /\
       completed_stages (progress job')
         = completed_stages (progress job) + 1)) /\
     NoDup (stages_completed (progress job')) /\
     percentage (progress job')
       = percent_of (completed_stages (progress job'))
           (total_stages (progress job')) /\
     PrimFloat.leb (percentage (progress job)) (percentage (progress job'))
       = true) /\
  (forall calls,
     nondecreasing_from (percentage (progress job))
       (percentages_after jm id calls)).
Proof.
  intros Hget C.
  destruct (update_job_progress_entry id jm job stage operation now Hget)
    as [E X].
  destruct (update_consistent (progress job) stage operation now C)
    as (N & C' & Hcount & Hle).
  split; [now rewrite X|]. split.
  - eexists. split; [exact E|]. cbn [progress set_progress].
    split; [exact C'|]. split.
    + destruct Hcount as [(Hin & _ & Hc) | (Hin & _ & Hc)]; [left | right];
        split; assumption.
    + split; [exact (pc_nodup _ C')|]. split; [exact (pc_percentage _ C')|].
      exact Hle.
  - intros calls. now apply percentages_nondecreasing.
Qed.

End Progress.

Lemma new_progress_consistent (now : string) :
  progress_consistent (JobProgress_default now).
Proof.
  constructor; cbn; try reflexivity.
  - constructor.
  - intros x [].
Qed.

(** A new job driven through two stages and back to the first. *)
Lemma progress_never_regresses_witness :
  let job := Job_new "job-1" "X" None "t0" "t0" in
  let jm := [("job-1", job)] in
  get_job jm "job-1" = Some job /\
  progress_consistent (progress job) /\
  nondecreasing_from (percentage (progress job))
    (percentages_after jm "job-1"
       [(INITIALIZATION, "a", "t1"); (DOCUMENT_RETRIEVAL, "b", "t2");
        (INITIALIZATION, "c", "t3")]).
Proof.
  cbv zeta. split; [reflexivity|]. split; [apply new_progress_consistent|].
  exact (proj2 (proj2 (progress_never_regresses
           [("job-1", Job_new "job-1" "X" None "t0" "t0")] "job-1"
           (Job_new "job-1" "X" None "t0" "t0") INITIALIZATION "a" "t1"
           eq_refl (new_progress_consistent "t0"))) _).
Defined.

(** ** Idempotent creation *)

Section Idempotency.

Lemma opt_str_eqb_Some (a : option string) (k : string) :
  opt_str_eqb a (Some k) = true <-> a = Some k.
Proof.
  destruct a as [x|]; simpl; split; try discriminate.
  - intros E. apply String.eqb_eq in E. now subst.
  - intros [= ->]. apply String.eqb_refl.
Qed.

Lemma find_existing_Some (vals : list Job) (key : option string) (j : Job) :
  find_existing vals key = Some j ->
  In j vals /\ opt_str_eqb (idempotency_key j) key = true /\
  active (status j) = true.
Proof.
  induction vals as [|v vals IH]; cbn [find_existing In]; [discriminate|].
  destruct (opt_str_eqb (idempotency_key v) key
            && status_in (status v) [COMPLETED; RUNNING]) eqn:E.
  - intros [= <-]. apply andb_prop in E. tauto.
  - intros H. destruct (IH H) as (? & ? & ?). tauto.
Qed.

Lemma find_existing_None (vals : list Job) (key : option string) :
  find_existing vals key = None ->
  forall j, In j vals -> opt_str_eqb (idempotency_key j) key = true ->
            active (status j) = false.
Proof.
  induction vals as [|v vals IH]; cbn [find_existing In]; [intros _ j []|].
  destruct (opt_str_eqb (idempotency_key v) key
            && status_in (status v) [COMPLETED; RUNNING]) eqn:E;
    [discriminate|].
  intros H j [<- | Hin] Hk.
  - rewrite Hk in E. exact E.
  - now apply IH.
Qed.

(** What [create_job] does when it creates. *)
Lemma create_job_new (jm : JobManager) (q : string) (key : option string)
    (u ta tb : string) :
  (if truthy key then find_existing (dict_values jm) key else None) = None ->
  create_job jm q key u ta tb =
    (Job_new u q key ta tb, dict_set jm u (Job_new u q key ta tb)).
Proof. unfold create_job. now intros ->. Qed.

(** Whatever [create_job] returns under a non-empty key carries that key. *)
Lemma create_job_key (jm : JobManager) (q key u ta tb : string) :
  idempotency_key (fst (create_job jm q (Some key) u ta tb)) = Some key.
Proof.
  unfold create_job.
  destruct (if truthy (Some key) then find_existing (dict_values jm) (Some key)
            else None) as [j|] eqn:E; simpl; [|reflexivity].
  destruct (truthy (Some key)); [|discriminate].
  apply find_existing_Some in E. now apply opt_str_eqb_Some.
Qed.

(** An entry the lookup finds sits somewhere in the registry. *)
Lemma dict_get_split (d : JobManager) (k : string) (v : Job) :
  dict_get d k = Some v ->
  exists before after, d = (before ++ (k, v) :: after)%list.
Proof.
  induction d as [|[k0 v0] d IH]; cbn [dict_get]; [discriminate|].
  destruct (String.eqb k0 k) eqn:E.
  - apply String.eqb_eq in E. intros [= ->]. subst. now exists [], d.
  - intros H. destruct (IH H) as (before & after & ->).
    now exists ((k0, v0) :: before), after.
Qed.

(** The scan of [create_job] stops at the first job that carries the key and
    is RUNNING or COMPLETED. *)
Lemma find_existing_earliest (before after : list Job) (job : Job)
    (key : string) :
  idempotency_key job = Some key ->
  active (status job) = true ->
  (forall j, In j before -> idempotency_key j = Some key ->
             active (status j) = false) ->
  find_existing (before ++ job :: after)%list (Some key) = Some job.
Proof.
  intros Hk Hact Hbefore.
  induction before as [|v before IH]; cbn [app find_existing].
  - apply opt_str_eqb_Some in Hk. unfold active in Hact.
    now rewrite Hk, Hact.
  - destruct (opt_str_eqb (idempotency_key v) (Some key)) eqn:K; cbn [andb].
    + apply opt_str_eqb_Some in K.
      pose proof (Hbefore v (or_introl eq_refl) K) as Hv.
      unfold active in Hv. rewrite Hv.
      apply IH. intros j Hj. apply Hbefore. now right.
    + apply IH. intros j Hj. apply Hbefore. now right.
Qed.

(** C1, as the code has it.  Two calls with the same non-empty key.  If, when
    the second call arrives, the job the first call returned is RUNNING or
    COMPLETED and no job registered before it carries the key with one of
    these statuses, the second call returns that job, unchanged, and the
    registry is unchanged.  If no job carrying the key is RUNNING or
    COMPLETED, the second call registers a new PENDING job under the
    identifier drawn, which is appended to the registry when that identifier
    is unused.  In general a call with a non-empty key returns the earliest
    registered job that carries the key and is RUNNING or COMPLETED, whenever
    there is one; and a call whose key is the empty string always registers a
    new job. *)
Theorem create_job_idempotent (jm0 jm : JobManager)
    (key q1 q2 u1 u2 ta tb tc td : string) (job1 : Job) :
  key <> "" ->
  get_job jm (job_id (fst (create_job jm0 q1 (Some key) u1 ta tb)))
    = Some job1 ->
  idempotency_key job1 = Some key ->
  (active (status job1) = true ->
   (forall before after,
      jm = (before
            ++ (job_id (fst (create_job jm0 q1 (Some key) u1 ta tb)), job1)
               :: after)%list ->
      forall j, In j (dict_values before) -> idempotency_key j = Some key ->
                active (status j) = false) ->
   create_job jm q2 (Some key) u2 tc td = (job1, jm)) /\
  ((forall j, In j (dict_values jm) -> idempotency_key j = Some key ->
              active (status j) = false) ->
   let job2 := fst (create_job jm q2 (Some key) u2 tc td) in
   let jm' := snd (create_job jm q2 (Some key) u2 tc td) in
   job2 = Job_new u2 q2 (Some key) tc td /\
   job_id job2 = u2 /\
   status job2 = PENDING /\
   get_job jm' u2 = Some job2 /\
   (get_job jm u2 = None -> jm' = (jm ++ [(u2, job2)])%list)) /\
  (forall (jm3 : JobManager) (q3 u3 te tf : string) before job after,
     dict_values jm3 = (before ++ job :: after)%list ->
     idempotency_key job = Some key ->
     active (status job) = true ->
     (forall j, In j before -> idempotency_key j = Some key ->
                active (status j) = false) ->
     create_job jm3 q3 (Some key) u3 te tf = (job, jm3)) /\
  (forall (jm3 : JobManager) (q3 u3 te tf : string),
     let job3 := fst (create_job jm3 q3 (Some "") u3 te tf) in
     let jm' := snd (create_job jm3 q3 (Some "") u3 te tf) in
     job3 = Job_new u3 q3 (Some "") te tf /\
     status job3 = PENDING /\
     get_job jm' u3 = Some job3 /\
     (get_job jm3 u3 = None -> jm' = (jm3 ++ [(u3, job3)])%list)).
Proof.
  intros Hkey Hget Hk.
  assert (truthy (Some key) = true) as T.
  { simpl. apply negb_true_iff. now apply String.eqb_neq. }
  assert (forall (jm3 : JobManager) (q3 u3 te tf : string) before job after,
            dict_values jm3 = (before ++ job :: after)%list ->
            idempotency_key job = Some key ->
            active (status job) = true ->
            (forall j, In j before -> idempotency_key j = Some key ->
                       active (status j) = false) ->
            create_job jm3 q3 (Some key) u3 te tf = (job, jm3)) as Hearliest.
  { intros jm3 q3 u3 te tf before job after Hvals Hkj Hact Hbefore.
    unfold create_job. rewrite T, Hvals.
    now rewrite (find_existing_earliest before after job key). }
  split; [|split; [|split]].
  - intros Hact Hbefore.
    destruct (dict_get_split _ _ _ Hget) as (before & after & E).
    apply (Hearliest jm q2 u2 tc td (dict_values before) job1
             (dict_values after));
      [|assumption|assumption|now apply (Hbefore before after)].
    rewrite E at 1. unfold dict_values. now rewrite map_app.
  - intros Hnone.
    assert (find_existing (dict_values jm) (Some key) = None) as E.
    { destruct (find_existing (dict_values jm) (Some key)) as [j|] eqn:E;
        [|reflexivity].
      destruct (find_existing_Some _ _ _ E) as (Hj & Kj & Aj).
      apply opt_str_eqb_Some in Kj. rewrite (Hnone j Hj Kj) in Aj.
      discriminate. }
    rewrite create_job_new by (now rewrite T).
    cbn [fst snd]. repeat split.
    + unfold get_job. apply dict_get_set_same.
    + intros Hfresh. now apply dict_set_fresh.
  - exact Hearliest.
  - intros jm3 q3 u3 te tf.
    rewrite create_job_new by reflexivity.
    cbn [fst snd]. repeat split.
    + unfold get_job. apply dict_get_set_same.
    + intros Hfresh. now apply dict_set_fresh.
Qed.

End Idempotency.

(** C1, as stated, fails in three ways: with the empty string as key the
    second call creates a job although the first is RUNNING; with two jobs
    registered under one key the call returns the earlier one, which is not
    the job the second post returned; and when the job of the first post is
    CANCELLED while a later one is RUNNING, no job is created. *)
Lemma create_job_not_idempotent :
  (let '(job1, job2, jm) := empty_key_twice in
   idempotency_key job1 = Some "" /\
   field status jm (job_id job1) = Some RUNNING /\
   job_id job1 = "job-1" /\ job_id job2 = "job-2" /\
   List.length jm = 2%nat) /\
  (let '(job1, job2, job3, jm) := same_key_both_running in
   field status jm (job_id job2) = Some RUNNING /\
   job_id job2 = "job-2" /\ job_id job3 = "job-1") /\
  (let '(job1, job2, job3, jm) := same_key_first_cancelled in
   field status jm (job_id job1) = Some CANCELLED /\
   job_id job3 = "job-2" /\ status job3 = RUNNING /\
   List.length jm = 2%nat).
Proof. repeat split; reflexivity. Qed.

(** A first job under the key has failed for good; the next post creates a
    second job under the same key, which starts; a further post gets that
    second job back. *)
Lemma create_job_idempotent_witness :
  let jm0 := mark_job_failed
               (snd (create_job [] "X" (Some "k") "job-1" "t0" "t0"))
               "job-1" "boom" false "t1" in
  let jm1 := snd (create_job jm0 "Y" (Some "k") "job-2" "t2" "t2") in
  let jm := update_job_status jm1 "job-2" RUNNING "t3" in
  exists job2,
    get_job jm "job-2" = Some job2 /\
    field status jm "job-1" = Some FAILED /\
    create_job jm "Z" (Some "k") "job-3" "t4" "t4" = (job2, jm).
Proof.
  cbv zeta. eexists. split; [reflexivity|]. split; [reflexivity|].
  refine (proj1 (create_job_idempotent
                   (mark_job_failed
                      (snd (create_job [] "X" (Some "k") "job-1" "t0" "t0"))
                      "job-1" "boom" false "t1")
                   _ "k" "Y" "Z" "job-2" "job-3" "t2" "t2" "t4" "t4" _ _ _ _)
            _ _).
  - discriminate.
  - reflexivity.
  - reflexivity.
  - reflexivity.
  - intros [|e1 [|e2 before]] after E j Hj _.
    + destruct Hj.
    + injection E as <- _. destruct Hj as [<- | []]. reflexivity.
    + injection E as _ _ E. now destruct before.
Defined.

(** ** Manual retry *)

(** C9. [retry_job] on a FAILED or CANCELLED job sets the status to PENDING
    and clears [error], and schedules the wrapper; the progress record, the
    execution history, the retry count and every other field, every other
    job included, stay as they were.  On a job in any other status the
    request is refused with a 400 and nothing changes. *)
Theorem retry_job_resets_status_and_error (jm : JobManager)
    (tasks : list string) (id : string) (now : string) (job : Job) :
  get_job jm id = Some job ->
  (status_in (status job) [FAILED; CANCELLED] = true ->
     exists body jm',
       retry_job jm tasks id now = (Ok body, jm', (tasks ++ [id])%list) /\
       get_job jm' id = Some (set_error None (set_status PENDING job)) /\
       field status jm' id = Some PENDING /\
       field error jm' id = Some None /\
       field progress jm' id = Some (progress job) /\
       field execution_history jm' id = Some (execution_history job) /\
       field retry_count jm' id = Some (retry_count job) /\
       (forall id', id' <> id -> get_job jm' id' = get_job jm id')) /\
  (status_in (status job) [FAILED; CANCELLED] = false ->
     retry_job jm tasks id now =
       (HTTPException 400
          ("Cannot retry job with status: " ++ status_value (status job)),
        jm, tasks)).
Proof.
  intros Hget. unfold retry_job. rewrite Hget. split; intros Hst; rewrite Hst.
  - cbn [negb]. do 2 eexists. split; [reflexivity|].
    unfold field.
    assert (get_job (with_job (update_job_status jm id PENDING now) id
                       (set_error None)) id
            = Some (set_error None (set_status PENDING job))) as E.
    { rewrite with_job_get_same.
      rewrite (update_job_status_entry id jm job PENDING now Hget).
      reflexivity. }
    rewrite E. repeat split.
    intros id' Hne. rewrite with_job_get_other by assumption.
    unfold update_job_status. now rewrite with_job_get_other.
  - reflexivity.
Qed.

Lemma retry_job_resets_status_and_error_witness :
  let job := set_error (Some "boom")
               (set_status FAILED (Job_new "job-1" "X" None "t0" "t0")) in
  let jm := [("job-1", job)] in
  get_job jm "job-1" = Some job /\
  exists body jm',
    retry_job jm [] "job-1" "t1" = (Ok body, jm', ["job-1"]) /\
    field status jm' "job-1" = Some PENDING /\
    field error jm' "job-1" = Some None.
Proof.
  cbv zeta. split; [reflexivity|].
  destruct (proj1 (retry_job_resets_status_and_error
              [("job-1", set_error (Some "boom")
                 (set_status FAILED (Job_new "job-1" "X" None "t0" "t0")))]
              [] "job-1" "t1" _ eq_refl) eq_refl)
    as (body & jm' & R & _ & S & E & _).
  exists body, jm'. repeat split; assumption.
Defined.

(** * Properties of the runner *)

Section TripleRules.

Context {A B : Type}.

Lemma triple_ret (P : World -> Prop) (a : A) :
  triple P (ret a) (fun a' w => a' = a /\ P w).
Proof. intros w H. exists a, w. auto. Qed.

Lemma triple_bind (P : World -> Prop) (m : Run A) (Q : A -> World -> Prop)
    (k : A -> Run B) (R : B -> World -> Prop) :
  triple P m Q -> (forall a, triple (Q a) (k a) R) -> triple P (bind m k) R.
Proof.
  intros Hm Hk w HP. destruct (Hm w HP) as (a & w1 & E1 & HQ).
  destruct (Hk a w1 HQ) as (b & w2 & E2 & HR).
  exists b, w2. unfold bind. now rewrite E1.
Qed.

Lemma triple_post (P : World -> Prop) (m : Run A)
    (Q Q' : A -> World -> Prop) :
  triple P m Q -> (forall a w, Q a w -> Q' a w) -> triple P m Q'.
Proof.
  intros Hm HQ w HP. destruct (Hm w HP) as (a & w1 & E1 & H).
  exists a, w1. auto.
Qed.

Lemma triple_pure (phi : Prop) (P : World -> Prop) (m : Run A)
    (Q : A -> World -> Prop) :
  (phi -> triple P m Q) -> triple (fun w => phi /\ P w) m Q.
Proof. intros H w [Hphi HP]. now apply H. Qed.

Lemma triple_try_except (P : World -> Prop) (m : Run A)
    (h : BaseException -> Run A) (Q : A -> World -> Prop) :
  triple P m Q -> triple P (try_except m h) Q.
Proof.
  intros Hm w HP. destruct (Hm w HP) as (a & w1 & E1 & H).
  exists a, w1. unfold try_except. now rewrite E1.
Qed.

End TripleRules.

Section UndisturbedRun.

Variable clock : nat -> string.
Variable env : nat -> JobManager -> JobManager.
Variable run_research : string -> outcome pydict.
Variable id : string.

(** The other contexts leave the job's entry alone: in particular nobody
    requests its cancellation. *)
Hypothesis env_leaves_entry :
  forall n jm, get_job (env n jm) id = get_job jm id.

Lemma update_no_raise (p : JobProgress) (s : JobStage) (op now : string) :
  total_stages p <> 0 ->
  snd (update p s op now) = None /\
  total_stages (fst (update p s op now)) = total_stages p.
Proof.
  intros H. unfold update, py_truediv.
  destruct (Z.eqb_spec (total_stages p) 0) as [E | _]; [contradiction|].
  split; reflexivity.
Qed.














End UndisturbedRun.



(** ** Cancellation during a run *)

(** A cancel request served during any of the sleeps of the first six stages
    ends the run at the next stage boundary: the job is CANCELLED and the
    runner returns the cancellation result. *)
Lemma cancel_before_report_generation_cancels (clock : nat -> string)
    (q : string) (res : pydict) :
  Forall (fun k =>
      fst (run_cancelled_during clock q res k) = Returned cancellation_result /\
      field status (registry (snd (run_cancelled_during clock q res k)))
        "job-1" = Some CANCELLED)
    (seq 0 30).
Proof. repeat constructor. Qed.

(** C4 fails on the code.  A cancel request served while the runner awaits
    the collaborator (await 30) or during one of FINALIZATION's sleeps
    (awaits 31 to 35) is seen by the next check inside FINALIZATION, which
    only leaves the pacing loop: the stage has no boundary check, the run goes
    on and the job ends COMPLETED, with the flag still set and the
    collaborator's result returned. *)
Theorem cancel_after_last_boundary_completes (clock : nat -> string)
    (q : string) (res : pydict) :
  Forall (fun k =>
      fst (run_cancelled_during clock q res k) = Returned res /\
      field status (registry (snd (run_cancelled_during clock q res k)))
        "job-1" = Some COMPLETED /\
      field cancellation_requested
        (registry (snd (run_cancelled_during clock q res k))) "job-1"
        = Some true)
    [30; 31; 32; 33; 34; 35]%nat.
Proof. repeat constructor. Qed.

(** ** A pipeline failure is marked twice *)

Section FailedRun.

Variable clock : nat -> string.
Variable env : nat -> JobManager -> JobManager.
Variable ResearchAgent_init : option BaseException.
Variable run_research : string -> outcome pydict.
Variable id : string.

(** The registry after the two handlers: the executor's, with [str(e)], then
    the wrapper's, with the exception's type name in front. *)
Lemma execute_job_wrapper_on_failure (w w2 : World) (job : Job)
    (n m : string) :
  get_job (registry w) id = Some job ->
  execute_job_body clock env ResearchAgent_init run_research id job
    (started clock id w) = (Raised (Exception n m), w2) ->
  execute_job clock env ResearchAgent_init run_research id w =
    (Raised (Exception n m),
     mkWorld (mark_job_failed (registry w2) id m true (clock (instant w2)))
       (S (instant w2)) (awaits w2)) /\
  execute_job_wrapper clock env ResearchAgent_init run_research id w =
    (Returned None,
     mkWorld
       (mark_job_failed
          (mark_job_failed (registry w2) id m true (clock (instant w2)))
          id (n ++ ": " ++ m) true (clock (S (instant w2))))
       (S (S (instant w2))) (awaits w2)).
Proof.
  intros Hget Hbody.
  assert (execute_job clock env ResearchAgent_init run_research id w =
    (Raised (Exception n m),
     mkWorld (mark_job_failed (registry w2) id m true (clock (instant w2)))
       (S (instant w2)) (awaits w2))) as E.
  { unfold execute_job. rewrite Hget.
    unfold bind at 1. unfold manager_call at 1.
    fold (started clock id w). unfold try_except. rewrite Hbody.
    reflexivity. }
  split; [exact E|].
  unfold execute_job_wrapper, try_except, bind. rewrite E. reflexivity.
Qed.

(** C10. When the [try] block of [execute_job] raises an exception, the
    wrapper's run applies [mark_job_failed(..., allow_retry=True)] twice to
    the registry the failure left: once in the executor's handler and once in
    the wrapper's.  One pipeline failure therefore takes two retries from the
    budget when two are left, and exhausts it into FAILED when one is left.
    With the default budget of 3 a job is FAILED, with [retry_count = 3],
    after its second failed run. *)
Theorem pipeline_failure_marked_twice (w w2 : World) (job job2 : Job)
    (n m : string) :
  get_job (registry w) id = Some job ->
  execute_job_body clock env ResearchAgent_init run_research id job
    (started clock id w) = (Raised (Exception n m), w2) ->
  get_job (registry w2) id = Some job2 ->
  let run :=
    execute_job_wrapper clock env ResearchAgent_init run_research id w in
  fst run = Returned None /\
  registry (snd run) =
    mark_job_failed
      (mark_job_failed (registry w2) id m true (clock (instant w2)))
      id (n ++ ": " ++ m) true (clock (S (instant w2))) /\
  (retry_count job2 + 2 <= max_retries job2 ->
     field retry_count (registry (snd run)) id = Some (retry_count job2 + 2) /\
     field status (registry (snd run)) id = Some RETRY) /\
  (retry_count job2 + 1 = max_retries job2 ->
     field retry_count (registry (snd run)) id = Some (max_retries job2) /\
     field status (registry (snd run)) id = Some FAILED) /\
  (forall q n' m' : string,
     let after1 := registry (fst (failing_twice q n' m')) in
     let after2 := registry (snd (failing_twice q n' m')) in
     field max_retries after1 "job-1" = Some 3 /\
     field retry_count after1 "job-1" = Some 2 /\
     field status after1 "job-1" = Some RETRY /\
     field retry_count after2 "job-1" = Some 3 /\
     field status after2 "job-1" = Some FAILED).
Proof.
  intros Hget Hbody Hget2. cbv zeta.
  destruct (execute_job_wrapper_on_failure w w2 job n m Hget Hbody) as [_ E].
  rewrite E. cbn [fst snd registry].
  pose proof (mark_job_failed_entry id _ _ m true (clock (instant w2)) Hget2)
    as H1.
  cbn [andb] in H1.
  split; [reflexivity|]. split; [reflexivity|]. split; [|split].
  - intros Hle. unfold field.
    assert (Z.ltb (retry_count job2) (max_retries job2) = true) as L1
      by (apply Z.ltb_lt; lia).
    rewrite L1 in H1.
    rewrite (mark_job_failed_entry id _ _ (n ++ ": " ++ m) true
               (clock (S (instant w2))) H1).
    cbn [andb retry_count max_retries set_retry_count set_status set_error].
    assert (Z.ltb (retry_count job2 + 1) (max_retries job2) = true) as L2
      by (apply Z.ltb_lt; lia).
    rewrite L2. cbn. split; [f_equal; lia | reflexivity].
  - intros Heq. unfold field.
    assert (Z.ltb (retry_count job2) (max_retries job2) = true) as L1
      by (apply Z.ltb_lt; lia).
    rewrite L1 in H1.
    rewrite (mark_job_failed_entry id _ _ (n ++ ": " ++ m) true
               (clock (S (instant w2))) H1).
    cbn [andb retry_count max_retries set_retry_count set_status set_error].
    assert (Z.ltb (retry_count job2 + 1) (max_retries job2) = false) as L2
      by (apply Z.ltb_ge; lia).
    rewrite L2. cbn. split; [f_equal; lia | reflexivity].
  - intros q n' m'. cbv zeta. repeat split; vm_compute; reflexivity.
Qed.

End FailedRun.

(** The first failed run of a new job, the collaborator raising
    [RuntimeError("boom")]. *)
Lemma pipeline_failure_marked_twice_witness :
  let fail := fun _ : string => @Raised pydict (Exception "RuntimeError" "boom") in
  let run := execute_job_wrapper wall_clock quiet None fail "job-1"
               (fresh_world "X") in
  fst run = Returned None /\
  field retry_count (registry (snd run)) "job-1" = Some 2 /\
  field status (registry (snd run)) "job-1" = Some RETRY.
Proof.
  cbv zeta.
  set (fail := fun _ : string => @Raised pydict (Exception "RuntimeError" "boom")).
  set (job := Job_new "job-1" "X" None "t0" "t0").
  set (w2 := snd (execute_job_body wall_clock quiet None fail "job-1" job
                    (started wall_clock "job-1" (fresh_world "X")))).
  assert (get_job (registry (fresh_world "X")) "job-1" = Some job) as H0
    by reflexivity.
  assert (execute_job_body wall_clock quiet None fail "job-1" job
            (started wall_clock "job-1" (fresh_world "X"))
          = (Raised (Exception "RuntimeError" "boom"), w2)) as H1
    by (vm_compute; reflexivity).
  assert (exists job2, get_job (registry w2) "job-1" = Some job2 /\
                       retry_count job2 = 0 /\ max_retries job2 = 3) as H2.
  { eexists. split; [vm_compute; reflexivity|]. split; reflexivity. }
  destruct H2 as (job2 & H2 & Z0 & M3).
  pose proof (pipeline_failure_marked_twice wall_clock quiet None fail "job-1"
                (fresh_world "X") w2 job job2 "RuntimeError" "boom"
                H0 H1 H2) as H.
  cbv zeta in H. destruct H as (R & _ & Two & _).
  split; [exact R|]. rewrite Z0, M3 in Two. apply Two. discriminate.
Defined.

(** * Further properties of the registry *)

Section RegistryShape.

Lemma dict_get_Some_In (d : JobManager) (k : string) (v : Job) :
  dict_get d k = Some v -> In (k, v) d.
Proof.
  induction d as [|[k0 v0] d IH]; cbn [dict_get]; [discriminate|].
  destruct (String.eqb k0 k) eqn:E.
  - apply String.eqb_eq in E. intros [= ->]. subst. now left.
  - intros H. right. now apply IH.
Qed.

Lemma dict_get_None_keys (d : JobManager) (k : string) :
  dict_get d k = None <-> ~ In k (map fst d).
Proof.
  induction d as [|[k0 v0] d IH]; cbn [dict_get map fst In]; [tauto|].
  destruct (String.eqb k0 k) eqn:E.
  - apply String.eqb_eq in E. subst. split; [discriminate | tauto].
  - apply String.eqb_neq in E. rewrite IH. tauto.
Qed.

Lemma In_dict_get (d : JobManager) (k : string) (v : Job) :
  NoDup (map fst d) -> In (k, v) d -> dict_get d k = Some v.
Proof.
  induction d as [|[k0 v0] d IH]; cbn [dict_get map fst In]; [tauto|].
  intros Hnd [[= -> ->] | Hin].
  - now rewrite String.eqb_refl.
  - inversion Hnd as [|? ? Hnotin Hnd']; subst.
    destruct (String.eqb k0 k) eqn:E.
    + apply String.eqb_eq in E. subst. exfalso. apply Hnotin.
      now apply (in_map fst) in Hin.
    + now apply IH.
Qed.

Lemma dict_set_keys_present (d : JobManager) (k : string) (v v' : Job) :
  dict_get d k = Some v -> map fst (dict_set d k v') = map fst d.
Proof.
  induction d as [|[k0 v0] d IH]; cbn [dict_get dict_set]; [discriminate|].
  destruct (String.eqb k0 k) eqn:E.
  - apply String.eqb_eq in E. now subst.
  - intros H. cbn [map fst]. now rewrite IH.
Qed.

Lemma dict_set_same_value (d : JobManager) (k : string) (v : Job) :
  dict_get d k = Some v -> dict_set d k v = d.
Proof.
  induction d as [|[k0 v0] d IH]; cbn [dict_get dict_set]; [discriminate|].
  destruct (String.eqb k0 k) eqn:E.
  - apply String.eqb_eq in E. intros [= ->]. now subst.
  - intros H. now rewrite IH.
Qed.

Lemma dict_set_In (d : JobManager) (k k0 : string) (v v0 : Job) :
  In (k, v) (dict_set d k0 v0) -> (k = k0 /\ v = v0) \/ In (k, v) d.
Proof.
  induction d as [|[k1 v1] d IH]; cbn [dict_set In].
  - intros [[= <- <-] | []]. now left.
  - destruct (String.eqb k1 k0) eqn:E; cbn [In].
    + intros [[= <- <-] | H]; [now left | right; now right].
    + intros [H | H]; [right; now left|].
      destruct (IH H) as [? | ?]; [now left | right; now right].
Qed.

Lemma with_job_keys (d : JobManager) (k : string) (f : Job -> Job) :
  map fst (with_job d k f) = map fst d.
Proof.
  unfold with_job. destruct (dict_get d k) eqn:E; [|reflexivity].
  now apply dict_set_keys_present with (v := j).
Qed.

Lemma with_job_wf (d : JobManager) (k : string) (f : Job -> Job) :
  (forall job, job_id (f job) = job_id job) ->
  registry_wf d -> registry_wf (with_job d k f).
Proof.
  intros Hf [Hnd Hid]. split; [now rewrite with_job_keys|].
  unfold with_job. destruct (dict_get d k) as [job|] eqn:E; [|exact Hid].
  intros k' job' Hin. destruct (dict_set_In _ _ _ _ _ Hin) as [[-> ->] | H].
  - rewrite Hf. apply Hid. now apply dict_get_Some_In.
  - now apply Hid.
Qed.

Lemma with_job_touches_only (d : JobManager) (k : string) (f : Job -> Job) :
  (forall job, same_identity job (f job)) ->
  touches_only k d (with_job d k f).
Proof.
  intros Hf. split; [apply with_job_keys|]. split; [|split].
  - intros id' Hne. now apply with_job_get_other.
  - intros job Hget. exists (f job). rewrite with_job_get_same, Hget.
    split; [reflexivity | apply Hf].
  - apply with_job_absent.
Qed.

(** [update_job_progress] and [cancel_job] written as in-place updates. *)
Lemma update_job_progress_with_job (jm : JobManager) (id : string)
    (s : JobStage) (op now : string) :
  fst (update_job_progress jm id s op now) =
    with_job jm id (fun job =>
      set_progress (fst (update (progress job) s op now)) job).
Proof.
  unfold update_job_progress, with_job.
  destruct (dict_get jm id) as [job|]; [|reflexivity].
  now destruct (update (progress job) s op now).
Qed.

Lemma cancel_job_with_job (jm : JobManager) (id : string) :
  snd (cancel_job jm id) =
    with_job jm id (fun job =>
      if JobStatus_eqb (status job) RUNNING
      then set_cancellation_requested true job else job).
Proof.
  unfold cancel_job, with_job.
  destruct (dict_get jm id) as [job|] eqn:E; [|reflexivity].
  destruct (JobStatus_eqb (status job) RUNNING); cbn [snd]; [reflexivity|].
  symmetry. now apply dict_set_same_value.
Qed.

End RegistryShape.

(** X1. An empty registry is well formed and every registry method keeps it
    so: ids stay unique and each job stays stored under its own [job_id],
    whatever identifier, status, stage or flag the call is given. *)
Theorem registry_stays_well_formed (jm : JobManager) :
  registry_wf jm ->
  (forall q key u ta tb, registry_wf (snd (create_job jm q key u ta tb))) /\
  (forall id st now, registry_wf (update_job_status jm id st now)) /\
  (forall id s op now,
     registry_wf (fst (update_job_progress jm id s op now))) /\
  (forall id, registry_wf (snd (cancel_job jm id))) /\
  (forall id res now, registry_wf (mark_job_completed jm id res now)) /\
  (forall id err allow now,
     registry_wf (mark_job_failed jm id err allow now)).
Proof.
  intros Hwf. repeat match goal with |- _ /\ _ => split end.
  - intros q key u ta tb. unfold create_job.
    destruct (if truthy key then find_existing (dict_values jm) key else None);
      cbn [snd]; [exact Hwf|].
    destruct Hwf as [Hnd Hid]. split.
    + destruct (dict_get jm u) as [old|] eqn:E.
      * now rewrite (dict_set_keys_present _ _ old).
      * rewrite dict_set_fresh by assumption. rewrite map_app. cbn [map fst].
        apply NoDup_app; [assumption | repeat constructor; intros [] |].
        intros x Hx [<- | []]. now apply dict_get_None_keys in E.
    + intros k job Hin. destruct (dict_set_In _ _ _ _ _ Hin) as [[-> ->] | H];
        [reflexivity | now apply Hid].
  - intros id st now. apply with_job_wf; [|assumption].
    intros job. destruct st; cbn; destruct (truthy (started_at job));
      reflexivity.
  - intros id s op now. rewrite update_job_progress_with_job.
    now apply with_job_wf.
  - intros id. rewrite cancel_job_with_job. apply with_job_wf; [|assumption].
    intros job. now destruct (JobStatus_eqb (status job) RUNNING).
  - intros id res now. now apply with_job_wf.
  - intros id err allow now. apply with_job_wf; [|assumption].
    intros job. cbn.
    now destruct (allow && Z.ltb (retry_count job) (max_retries job)).
Qed.

Lemma registry_stays_well_formed_witness :
  registry_wf [] /\
  registry_wf (snd (create_job [] "X" (Some "k") "job-1" "t0" "t0")).
Proof.
  assert (registry_wf []) as E.
  { split; [constructor | intros k job []]. }
  split; [exact E|].
  exact (proj1 (registry_stays_well_formed [] E) "X" (Some "k") "job-1"
           "t0" "t0").
Defined.

(** X2. The five mutators of the registry act on one entry only: the order
    of the ids, every other job, and the job's own [job_id], [query],
    [created_at], [idempotency_key] and [max_retries] are unchanged, and a
    call naming an unknown id changes nothing at all. *)
Theorem mutators_touch_one_entry (jm : JobManager) (id : string) :
  (forall st now, touches_only id jm (update_job_status jm id st now)) /\
  (forall s op now,
     touches_only id jm (fst (update_job_progress jm id s op now))) /\
  touches_only id jm (snd (cancel_job jm id)) /\
  (forall res now, touches_only id jm (mark_job_completed jm id res now)) /\
  (forall err allow now,
     touches_only id jm (mark_job_failed jm id err allow now)).
Proof.
  repeat match goal with |- _ /\ _ => split end.
  - intros st now. apply with_job_touches_only. intros job.
    destruct st; cbn; destruct (truthy (started_at job)); repeat split.
  - intros s op now. rewrite update_job_progress_with_job.
    apply with_job_touches_only. intros job. repeat split.
  - rewrite cancel_job_with_job. apply with_job_touches_only. intros job.
    destruct (JobStatus_eqb (status job) RUNNING); repeat split.
  - intros res now. apply with_job_touches_only. intros job. repeat split.
  - intros err allow now. apply with_job_touches_only. intros job. cbn.
    destruct (allow && Z.ltb (retry_count job) (max_retries job));
      repeat split.
Qed.

(** X3. In a well-formed registry, whatever the key, the job [create_job]
    returns is registered under its own id: [get_job] finds exactly it,
    whether it was just created or is the existing job the key gave back. *)
Theorem create_job_returns_registered (jm : JobManager) (q : string)
    (key : option string) (u ta tb : string) :
  registry_wf jm ->
  get_job (snd (create_job jm q key u ta tb))
    (job_id (fst (create_job jm q key u ta tb)))
  = Some (fst (create_job jm q key u ta tb)).
Proof.
  intros [Hnd Hid]. unfold create_job, get_job.
  destruct (if truthy key then find_existing (dict_values jm) key else None)
    as [job|] eqn:E; cbn [fst snd].
  - destruct (truthy key); [|discriminate].
    apply find_existing_Some in E. destruct E as (Hin & _).
    apply in_map_iff in Hin. destruct Hin as ([k j] & Hj & Hin).
    cbn in Hj. subst j. rewrite (Hid _ _ Hin). now apply In_dict_get.
  - apply dict_get_set_same.
Qed.

Lemma create_job_returns_registered_witness :
  let jm := update_job_status
              (snd (create_job [] "X" (Some "k") "job-1" "t0" "t0"))
              "job-1" RUNNING "t1" in
  job_id (fst (create_job jm "Y" (Some "k") "job-2" "t2" "t2")) = "job-1" /\
  get_job (snd (create_job jm "Y" (Some "k") "job-2" "t2" "t2")) "job-1"
  = Some (fst (create_job jm "Y" (Some "k") "job-2" "t2" "t2")).
Proof.
  cbv zeta. split; [reflexivity|].
  refine (create_job_returns_registered _ "Y" (Some "k") "job-2" "t2" "t2" _).
  split.
  - repeat constructor. intros [].
  - intros k job [[= <- <-] | []]. reflexivity.
Defined.

(** ** The time-based sweep *)

Section DeletionFacts.

Lemma NoDup_keys_filter (f : string * Job -> bool) (d : JobManager) :
  NoDup (map fst d) -> NoDup (map fst (filter f d)).
Proof.
  induction d as [|e d IH]; cbn [filter map]; [trivial|].
  intros Hnd. inversion Hnd as [|? ? Hnotin Hnd']; subst.
  destruct (f e); [|now apply IH].
  cbn [map]. constructor; [|now apply IH].
  intros Hin. apply Hnotin. apply in_map_iff in Hin.
  destruct Hin as (x & Hx & Hin). apply filter_In in Hin.
  apply in_map_iff. exists x. tauto.
Qed.

Lemma filter_absent_key (d : JobManager) (k : string) :
  ~ In k (map fst d) ->
  filter (fun e => negb (String.eqb (fst e) k)) d = d.
Proof.
  induction d as [|[k0 v0] d IH]; cbn [filter map fst In]; [trivial|].
  intros Hnotin. destruct (String.eqb k0 k) eqn:E.
  - apply String.eqb_eq in E. tauto.
  - cbn [negb]. rewrite IH; tauto.
Qed.

Lemma dict_del_present (d : JobManager) (k : string) :
  NoDup (map fst d) -> In k (map fst d) ->
  dict_del d k = Some (filter (fun e => negb (String.eqb (fst e) k)) d).
Proof.
  induction d as [|[k0 v0] d IH]; cbn [dict_del filter map fst In]; [tauto|].
  intros Hnd Hin. inversion Hnd as [|? ? Hnotin Hnd']; subst.
  destruct (String.eqb k0 k) eqn:E; cbn [negb].
  - apply String.eqb_eq in E. subst. now rewrite filter_absent_key.
  - apply String.eqb_neq in E. destruct Hin as [? | Hin]; [contradiction|].
    now rewrite IH.
Qed.

Lemma delete_each_filter (ids : list string) :
  forall d : JobManager,
    NoDup (map fst d) -> NoDup ids -> incl ids (map fst d) ->
    delete_each d ids =
      (filter (fun e => negb (existsb (String.eqb (fst e)) ids)) d, None).
Proof.
  induction ids as [|id rest IH]; intros d Hnd Hids Hincl; cbn [delete_each].
  - cbn [existsb negb]. f_equal. clear. induction d as [|e d IH];
      cbn [filter]; [reflexivity | now rewrite <- IH at 1].
  - inversion Hids as [|? ? Hnotin Hrest]; subst.
    rewrite dict_del_present; [|assumption | apply Hincl; now left].
    rewrite IH; [| now apply NoDup_keys_filter | assumption |].
    + f_equal. clear. induction d as [|e d IHd]; cbn [filter existsb];
        [reflexivity|].
      destruct (String.eqb (fst e) id); cbn [negb orb filter]; [exact IHd|].
      destruct (existsb (String.eqb (fst e)) rest); cbn [negb];
        [exact IHd | now rewrite IHd].
    + intros x Hx. assert (In x (map fst d)) as Hxd by (apply Hincl; now right).
      apply in_map_iff in Hxd. destruct Hxd as (e & He & Hin).
      apply in_map_iff. exists e. split; [assumption|].
      apply filter_In. split; [assumption|].
      apply negb_true_iff. apply String.eqb_neq. congruence.
Qed.

Lemma filter_length_split {A : Type} (f : A -> bool) (l : list A) :
  List.length (filter (fun x => negb (f x)) l)
  = (List.length l - List.length (filter f l))%nat.
Proof.
  induction l as [|x l IH]; cbn [filter List.length]; [reflexivity|].
  pose proof (filter_length_le f l) as L.
  destruct (f x); cbn [negb List.length]; lia.
Qed.

Lemma dict_get_filter (f : string * Job -> bool) (d : JobManager)
    (k : string) :
  NoDup (map fst d) ->
  dict_get (filter f d) k =
    match dict_get d k with
    | Some v => if f (k, v) then Some v else None
    | None => None
    end.
Proof.
  induction d as [|[k0 v0] d IH]; cbn [filter dict_get map fst];
    [reflexivity|].
  intros Hnd. inversion Hnd as [|? ? Hnotin Hnd']; subst.
  destruct (String.eqb k0 k) eqn:E.
  - apply String.eqb_eq in E. subst k0.
    destruct (f (k, v0)); cbn [dict_get].
    + now rewrite String.eqb_refl.
    + rewrite IH by assumption.
      apply dict_get_None_keys in Hnotin. now rewrite Hnotin.
  - destruct (f (k0, v0)); cbn [dict_get]; [rewrite E|]; now apply IH.
Qed.

End DeletionFacts.

Section ExactComparison.

Lemma scaled_lt (n v e : Z) :
  (inject_Z n < inject_Z v * inject_Z 2 ^ e)%Q <->
  if Z.leb 0 e then n < v * 2 ^ e else n * 2 ^ (- e) < v.
Proof.
  destruct (Z.leb_spec 0 e) as [He | He].
  - rewrite <- Zpower_Qpower by assumption.
    rewrite <- inject_Z_mult, <- Zlt_Qlt. reflexivity.
  - assert (e = - (- e)) as E by lia.
    assert (0 < 2 ^ (- e)) as Hd by (apply Z.pow_pos_nonneg; lia).
    rewrite E at 1. rewrite Qpower_opp.
    rewrite <- Zpower_Qpower by lia.
    destruct (2 ^ (- e)) as [|d|d] eqn:D; try lia.
    unfold Qlt, Qinv, Qmult, inject_Z. cbn [Qnum Qden].
    rewrite ?Z.mul_1_r, ?Pos.mul_1_l. reflexivity.
Qed.

Lemma float_gt_Z_spec (x : float) (n : Z) :
  float_gt_Z x n = true <-> older_than x n.
Proof.
  unfold float_gt_Z, older_than, float_exact.
  destruct (Prim2SF x) as [s | s | | s m e].
  - rewrite Z.ltb_lt. split.
    + intros H. right. exists 0%Q. split; [reflexivity|].
      change 0%Q with (inject_Z 0). now rewrite <- Zlt_Qlt.
    + intros [[=] | (v & [= <-] & H)].
      change 0%Q with (inject_Z 0) in H. now rewrite <- Zlt_Qlt in H.
  - destruct s; cbn [negb]; split; try discriminate; auto.
    + intros [[=] | (v & [=] & _)].
  - split; [discriminate|]. intros [[=] | (v & [=] & _)].
  - cbv zeta. split.
    + intros H. right. eexists. split; [reflexivity|].
      apply scaled_lt. destruct (Z.leb 0 e); now apply Z.ltb_lt.
    + intros [[=] | (v & [= <-] & H)].
      apply scaled_lt in H. destruct (Z.leb 0 e); now apply Z.ltb_lt.
Qed.

End ExactComparison.

Section Cleanup.

Variable age_hours : string -> float + BaseException.
Variable max_age_hours : Z.

(** The first loop, when no timestamp is rejected. *)
Lemma jobs_to_remove_filter (d : JobManager) :
  (forall e, In e d -> exists old, expired age_hours max_age_hours (snd e)
                                   = inl old) ->
  jobs_to_remove age_hours max_age_hours d =
    inl (map fst (filter (fun e => negb (kept age_hours max_age_hours e)) d)).
Proof.
  induction d as [|[k job] d IH]; intros Hok; cbn [jobs_to_remove filter];
    [reflexivity|].
  destruct (Hok (k, job) (or_introl eq_refl)) as [old Hold]. cbn [snd] in Hold.
  assert (kept age_hours max_age_hours (k, job) = negb old) as K.
  { unfold kept. cbn [snd]. now rewrite Hold. }
  rewrite Hold, K, negb_involutive.
  rewrite IH by (intros e He; apply Hok; now right).
  now destruct old.
Qed.

Lemma removed_iff_not_kept (d : JobManager) (e : string * Job) :
  NoDup (map fst d) -> In e d ->
  existsb (String.eqb (fst e))
    (map fst (filter (fun e => negb (kept age_hours max_age_hours e)) d))
  = negb (kept age_hours max_age_hours e).
Proof.
  intros Hnd Hin.
  destruct (kept age_hours max_age_hours e) eqn:K; cbn [negb].
  - apply not_true_is_false. intros H. apply existsb_exists in H.
    destruct H as (k & Hk & E). apply String.eqb_eq in E. subst k.
    apply in_map_iff in Hk. destruct Hk as (e' & He' & Hin').
    apply filter_In in Hin'. destruct Hin' as [Hin' K'].
    assert (e' = e) as ->.
    { destruct e as [k v], e' as [k' v']. cbn [fst] in He'. subst k'.
      pose proof (In_dict_get _ _ _ Hnd Hin) as G1.
      pose proof (In_dict_get _ _ _ Hnd Hin') as G2. congruence. }
    rewrite K in K'. discriminate.
  - apply existsb_exists. exists (fst e). split; [|apply String.eqb_refl].
    apply in_map. apply filter_In. split; [assumption|]. now rewrite K.
Qed.

(** What the sweep does when every stored timestamp can be parsed. *)
Lemma cleanup_old_jobs_filter (jm : JobManager) :
  NoDup (map fst jm) ->
  (forall e, In e jm -> exists old, expired age_hours max_age_hours (snd e)
                                    = inl old) ->
  cleanup_old_jobs jm age_hours max_age_hours =
    (inl (Z.of_nat (List.length jm
                    - List.length (filter (kept age_hours max_age_hours) jm))),
     filter (kept age_hours max_age_hours) jm).
Proof.
  intros Hnd Hok. unfold cleanup_old_jobs.
  rewrite jobs_to_remove_filter by assumption.
  rewrite delete_each_filter.
  - rewrite length_map, filter_length_split. f_equal.
    apply filter_ext_in. intros e He.
    rewrite removed_iff_not_kept by assumption. apply negb_involutive.
  - assumption.
  - now apply NoDup_keys_filter.
  - intros k Hk. apply in_map_iff in Hk. destruct Hk as (e & He & Hin).
    apply filter_In in Hin. apply in_map_iff. exists e. tauto.
Qed.

Lemma expired_parses (jm : JobManager) :
  (forall job t, In job (dict_values jm) -> completed_at job = Some t ->
     exists age, age_hours t = inl age) ->
  forall e, In e jm ->
    exists old, expired age_hours max_age_hours (snd e) = inl old.
Proof.
  intros Hparse [k job] Hin. cbn [snd]. unfold expired.
  destruct (status_in (status job) [COMPLETED; FAILED; CANCELLED]);
    [|now eexists].
  destruct (completed_at job) as [t|] eqn:C; [|now eexists].
  destruct (truthy (Some t)); [|now eexists].
  destruct (Hparse job t) as [age ->]; [|assumption|now eexists].
  apply in_map_iff. now exists (k, job).
Qed.

(** The sweep's test on one entry, in terms of the job's age. *)
Lemma kept_false_iff (id : string) (job : Job) :
  kept age_hours max_age_hours (id, job) = false <->
  finished_long_ago age_hours max_age_hours job.
Proof.
  unfold kept, expired, finished_long_ago. cbn [snd].
  destruct (status_in (status job) [COMPLETED; FAILED; CANCELLED]);
    [|split; [discriminate|now intros [? _]]].
  destruct (completed_at job) as [t|];
    [|split; [discriminate|now intros [_ (t & age & [=] & _)]]].
  cbn [truthy]. destruct (String.eqb_spec t "") as [-> | Ht]; cbn [negb].
  - split; [discriminate|]. intros [_ (t & age & [= <-] & Ht & _)].
    now contradiction Ht.
  - destruct (age_hours t) as [age | e] eqn:A.
    + cbn [negb]. rewrite negb_false_iff, float_gt_Z_spec. split.
      * intros H. split; [reflexivity|]. now exists t, age.
      * intros [_ (t' & age' & [= <-] & _ & A' & H)]. congruence.
    + split; [discriminate|].
      intros [_ (t' & age' & [= <-] & _ & A' & _)]. congruence.
Qed.

Lemma cleanup_removes_only_expired_aux (jm : JobManager) :
  registry_wf jm ->
  (forall job t, In job (dict_values jm) -> completed_at job = Some t ->
     exists age, age_hours t = inl age) ->
  cleanup_old_jobs jm age_hours max_age_hours =
    (inl (Z.of_nat (List.length jm
                    - List.length (filter (kept age_hours max_age_hours) jm))),
     filter (kept age_hours max_age_hours) jm) /\
  registry_wf (filter (kept age_hours max_age_hours) jm) /\
  (forall e, In e (filter (kept age_hours max_age_hours) jm) ->
     exists old, expired age_hours max_age_hours (snd e) = inl old).
Proof.
  intros [Hnd Hid] Hparse.
  pose proof (expired_parses jm Hparse) as Hok.
  split; [now apply cleanup_old_jobs_filter|]. split.
  - split; [now apply NoDup_keys_filter|].
    intros k job Hin. apply filter_In in Hin. now apply Hid.
  - intros e He. apply filter_In in He. now apply Hok.
Qed.

(** X4. In a well-formed registry whose stored completion times can all be
    parsed, [cleanup_old_jobs] raises nothing and returns how many jobs it
    removed.  It removes exactly the jobs that are COMPLETED, FAILED or
    CANCELLED and whose completion time lies more than [max_age_hours] hours
    back: the age is compared as the number it is, strictly, so a job aged
    exactly [max_age_hours] stays, and the threshold may be any integer.
    Every other job is kept, unchanged and in its place; a PENDING, RUNNING
    or RETRY job is never removed, whatever its age. *)
Theorem cleanup_removes_only_expired (jm : JobManager) :
  registry_wf jm ->
  (forall job t, In job (dict_values jm) -> completed_at job = Some t ->
     exists age, age_hours t = inl age) ->
  exists jm',
    cleanup_old_jobs jm age_hours max_age_hours =
      (inl (Z.of_nat (List.length jm - List.length jm')), jm') /\
    jm' = filter (kept age_hours max_age_hours) jm /\
    registry_wf jm' /\
    (forall id job, get_job jm id = Some job ->
       (get_job jm' id = None <->
        finished_long_ago age_hours max_age_hours job) /\
       (get_job jm' id = None \/ get_job jm' id = Some job)) /\
    (forall id job, get_job jm id = Some job ->
       status_in (status job) [PENDING; RUNNING; RETRY] = true ->
       get_job jm' id = Some job) /\
    (forall id job, get_job jm' id = Some job -> get_job jm id = Some job).
Proof.
  intros [Hnd Hid] Hparse.
  pose proof (expired_parses jm Hparse) as Hok.
  exists (filter (kept age_hours max_age_hours) jm).
  assert (forall id job, get_job jm id = Some job ->
            get_job (filter (kept age_hours max_age_hours) jm) id =
              if kept age_hours max_age_hours (id, job) then Some job
              else None) as Hget.
  { intros id job G. unfold get_job in *.
    now rewrite dict_get_filter, G by assumption. }
  split; [now apply cleanup_old_jobs_filter|]. split; [reflexivity|].
  split; [|split; [|split]].
  - split; [now apply NoDup_keys_filter|].
    intros k job Hin. apply filter_In in Hin. now apply Hid.
  - intros id job G. rewrite (Hget _ _ G), <- (kept_false_iff id job).
    destruct (kept age_hours max_age_hours (id, job)).
    + split; [split; discriminate|now right].
    + split; [tauto|now left].
  - intros id job G Hst. rewrite (Hget _ _ G).
    unfold kept, expired. cbn [snd].
    now destruct (status job); try discriminate Hst.
  - intros id job G. unfold get_job in *.
    rewrite dict_get_filter in G by assumption.
    destruct (dict_get jm id) as [v|]; [|discriminate].
    destruct (kept age_hours max_age_hours (id, v)); congruence.
Qed.

(** X5. A sweep repeated at once, with the same clock reading and the same
    threshold, finds nothing left to remove: it returns 0 and leaves the
    registry as the first sweep left it. *)
Theorem cleanup_twice_removes_nothing (jm : JobManager) :
  registry_wf jm ->
  (forall job t, In job (dict_values jm) -> completed_at job = Some t ->
     exists age, age_hours t = inl age) ->
  let jm' := snd (cleanup_old_jobs jm age_hours max_age_hours) in
  cleanup_old_jobs jm' age_hours max_age_hours = (inl 0, jm').
Proof.
  intros Hwf Hparse. cbv zeta.
  destruct (cleanup_removes_only_expired_aux jm Hwf Hparse) as [E [Hwf' Hp']].
  rewrite E. cbn [snd].
  destruct Hwf' as [Hnd' Hid'].
  rewrite cleanup_old_jobs_filter; [| assumption |].
  - assert (filter (kept age_hours max_age_hours)
              (filter (kept age_hours max_age_hours) jm)
            = filter (kept age_hours max_age_hours) jm) as F.
    { clear. induction jm as [|e d IH]; cbn [filter]; [reflexivity|].
      destruct (kept age_hours max_age_hours e) eqn:K; [|exact IH].
      cbn [filter]. now rewrite K, IH. }
    rewrite F, Nat.sub_diag. reflexivity.
  - exact Hp'.
Qed.

(** X6. The sweep parses every candidate's completion time before it deletes
    anything: when [fromisoformat] raises on the time of some finished job, the
    sweep raises and the registry is left exactly as it was, jobs that had
    already been found expired included. *)
Theorem cleanup_raises_before_deleting (jm : JobManager) (job : Job)
    (t : string) (e : BaseException) :
  In job (dict_values jm) ->
  status_in (status job) [COMPLETED; FAILED; CANCELLED] = true ->
  completed_at job = Some t ->
  t <> "" ->
  age_hours t = inr e ->
  exists e', cleanup_old_jobs jm age_hours max_age_hours = (inr e', jm).
Proof.
  intros Hin Hst Hc Ht He.
  assert (expired age_hours max_age_hours job = inr e) as X.
  { unfold expired. rewrite Hst, Hc. cbn [truthy].
    apply String.eqb_neq in Ht. rewrite Ht. cbn [negb]. now rewrite He. }
  assert (exists e', jobs_to_remove age_hours max_age_hours jm = inr e')
    as [e' R].
  { clear - Hin X. induction jm as [|[k j] d IH]; [destruct Hin|].
    cbn [jobs_to_remove].
    destruct (expired age_hours max_age_hours j) as [old|e0] eqn:Xj;
      [|now eexists].
    destruct Hin as [Hj | Hin]; [cbn in Hj; congruence|].
    destruct (IH Hin) as [e' ->]. now eexists. }
  exists e'. unfold cleanup_old_jobs. now rewrite R.
Qed.

End Cleanup.

(** A registry with a job completed thirty hours ago, a running job and a job
    completed exactly a day ago, swept with a threshold of a day. *)
Lemma cleanup_removes_only_expired_witness :
  let age := fun t : string =>
    @inl float BaseException
      (if String.eqb t "t1" then 30%float else 24%float) in
  let jm := [("job-1", set_completed_at (Some "t1")
                         (set_status COMPLETED
                            (Job_new "job-1" "X" None "t0" "t0")));
             ("job-2", set_status RUNNING
                         (Job_new "job-2" "Y" None "t2" "t2"));
             ("job-3", set_completed_at (Some "t3")
                         (set_status FAILED
                            (Job_new "job-3" "Z" None "t2" "t2")))] in
  exists jm',
    cleanup_old_jobs jm age 24 = (inl 1, jm') /\
    get_job jm' "job-1" = None /\
    get_job jm' "job-2" = get_job jm "job-2" /\
    get_job jm' "job-3" = get_job jm "job-3".
Proof.
  cbv zeta.
  destruct (cleanup_removes_only_expired
              (fun t => inl (if String.eqb t "t1" then 30%float
                             else 24%float)) 24
              [("job-1", set_completed_at (Some "t1")
                           (set_status COMPLETED
                              (Job_new "job-1" "X" None "t0" "t0")));
               ("job-2", set_status RUNNING
                           (Job_new "job-2" "Y" None "t2" "t2"));
               ("job-3", set_completed_at (Some "t3")
                           (set_status FAILED
                              (Job_new "job-3" "Z" None "t2" "t2")))])
    as (jm' & E & -> & _).
  - split.
    + repeat constructor; cbn; intuition discriminate.
    + intros k job [[= <- <-] | [[= <- <-] | [[= <- <-] | []]]]; reflexivity.
  - intros job t _ _. now eexists.
  - eexists. split; [exact E|]. repeat split; reflexivity.
Defined.

Lemma cleanup_twice_removes_nothing_witness :
  let age := fun _ : string => @inl float BaseException 30%float in
  let jm := [("job-1", set_completed_at (Some "t1")
                         (set_status COMPLETED
                            (Job_new "job-1" "X" None "t0" "t0")))] in
  cleanup_old_jobs (snd (cleanup_old_jobs jm age 24)) age 24
  = (inl 0, snd (cleanup_old_jobs jm age 24)).
Proof.
  cbv zeta.
  refine (cleanup_twice_removes_nothing (fun _ => inl 30%float) 24 _ _ _).
  - split.
    + repeat constructor. intros [].
    + intros k job [[= <- <-] | []]. reflexivity.
  - intros job t _ _. now eexists.
Defined.

Lemma cleanup_raises_before_deleting_witness :
  let age := fun t : string =>
    if String.eqb t "yesterday"
    then @inr float BaseException (Exception "ValueError" "bad")
    else inl 30%float in
  let jm := [("job-1", set_completed_at (Some "t1")
                         (set_status COMPLETED
                            (Job_new "job-1" "X" None "t0" "t0")));
             ("job-2", set_completed_at (Some "yesterday")
                         (set_status FAILED
                            (Job_new "job-2" "Y" None "t2" "t2")))] in
  exists e', cleanup_old_jobs jm age 24 = (inr e', jm).
Proof.
  cbv zeta.
  refine (cleanup_raises_before_deleting _ 24 _
            (set_completed_at (Some "yesterday")
               (set_status FAILED (Job_new "job-2" "Y" None "t2" "t2")))
            "yesterday" (Exception "ValueError" "bad") _ _ _ _ _).
  - cbn. tauto.
  - reflexivity.
  - reflexivity.
  - discriminate.
  - reflexivity.
Defined.

(** * Properties of the endpoints *)



Section ThreadCalls.

Lemma thread_call_touches_only (c : thread_call) (jm : JobManager) :
  touches_only (call_id c) jm (thread_call_run c jm).
Proof.
  destruct c as [id st now | id stage op now | id stage details now
                 | id res now | id err now]; cbn [call_id thread_call_run].
  - apply with_job_touches_only. intros job.
    destruct st; cbn; destruct (truthy (started_at job)); repeat split.
  - rewrite update_job_progress_with_job.
    apply with_job_touches_only. intros job. repeat split.
  - apply with_job_touches_only. intros job. repeat split.
  - apply with_job_touches_only. intros job. repeat split.
  - apply with_job_touches_only. intros job. cbn.
    destruct (Z.ltb (retry_count job) (max_retries job)); repeat split.
Qed.

(** The background tasks remove no job. *)
Lemma threads_run_present (calls : list thread_call) (jm : JobManager)
    (id : string) (job : Job) :
  get_job jm id = Some job ->
  exists job', get_job (threads_run calls jm) id = Some job'.
Proof.
  revert jm job. induction calls as [|c calls IH]; intros jm job Hget.
  - now exists job.
  - cbn [threads_run fold_left].
    destruct (thread_call_touches_only c jm) as (_ & Hother & Hsame & _).
    destruct (string_dec id (call_id c)) as [-> | Hne].
    + destruct (Hsame job Hget) as (job' & Hget' & _).
      exact (IH _ job' Hget').
    + apply (IH _ job). now rewrite Hother.
Qed.

(** Calls about other jobs leave a job as it is. *)
Lemma threads_run_other (calls : list thread_call) (jm : JobManager)
    (id : string) :
  (forall c, In c calls -> call_id c <> id) ->
  get_job (threads_run calls jm) id = get_job jm id.
Proof.
  revert jm. induction calls as [|c calls IH]; intros jm Hcalls;
    [reflexivity|].
  cbn [threads_run fold_left].
  destruct (thread_call_touches_only c jm) as (_ & Hother & _).
  change (get_job (threads_run calls (thread_call_run c jm)) id
          = get_job jm id).
  rewrite IH by (intros c' Hc'; apply Hcalls; now right).
  apply Hother. intros E. apply (Hcalls c); [now left|now symmetry].
Qed.

Lemma live_present (jm : JobManager) (id : string) (job job' : Job) :
  get_job jm id = Some job' -> live jm id job = job'.
Proof. unfold live. now intros ->. Qed.

End ThreadCalls.

(** X8. The cancel endpoint answers 404 for an unknown id.  For a known job
    the status is tested twice, by the handler outside the lock and by
    [job_manager.cancel_job] under it, and a background task may act in
    between.  The request is accepted exactly when the job is RUNNING at both
    tests, and then the flag is set.  A job that is not RUNNING at the
    handler's test gets 400 with the status read for the message.  A job
    whose run ended between the two tests gets 400 "Failed to cancel job",
    which happens when the run completes in between.  When no background task
    acts during the request, the request is accepted exactly when the job
    exists and is RUNNING and that last answer is not given. *)
Theorem cancel_endpoint_accepts_only_running (jm : JobManager)
    (threads : nat -> list thread_call) (id : string) :
  let out := router.cancel_job jm threads id in
  let at_test := threads_run (threads 0%nat) jm in
  let at_call := threads_run (threads 1%nat) at_test in
  (get_job jm id = None ->
     out = (router.Refused 404 "Job not found", jm)) /\
  (forall job, get_job jm id = Some job ->
     exists job0 job1,
       get_job at_test id = Some job0 /\
       get_job at_call id = Some job1 /\
       (status job0 <> RUNNING ->
          out = (router.Refused 400
                   ("Cannot cancel job with status: "
                    ++ status_value (status job1)),
                 at_call)) /\
       (status job0 = RUNNING -> status job1 = RUNNING ->
          out = (router.Sent [("message", PyStr "Cancellation requested");
                              ("job_id", PyStr id)],
                 snd (cancel_job at_call id)) /\
          is_cancellation_requested (snd out) id = true) /\
       (status job0 = RUNNING -> status job1 <> RUNNING ->
          out = (router.Refused 400 "Failed to cancel job", at_call)) /\
       ((exists body, fst out = router.Sent body) <->
        status job0 = RUNNING /\ status job1 = RUNNING)) /\
  (forall job res now,
     get_job jm id = Some job -> status job = RUNNING ->
     threads 0%nat = [] ->
     threads 1%nat = [call_mark_job_completed id res now] ->
     fst out = router.Refused 400 "Failed to cancel job") /\
  (threads 0%nat = [] -> threads 1%nat = [] ->
     ((exists body, fst out = router.Sent body) <->
      (exists job, get_job jm id = Some job /\ status job = RUNNING)) /\
     fst out <> router.Refused 400 "Failed to cancel job").
Proof.
  cbv zeta.
  assert (forall job, get_job jm id = Some job ->
     exists job0 job1,
       get_job (threads_run (threads 0%nat) jm) id = Some job0 /\
       get_job (threads_run (threads 1%nat)
                  (threads_run (threads 0%nat) jm)) id = Some job1 /\
       (status job0 <> RUNNING ->
          router.cancel_job jm threads id
          = (router.Refused 400
               ("Cannot cancel job with status: "
                ++ status_value (status job1)),
             threads_run (threads 1%nat) (threads_run (threads 0%nat) jm))) /\
       (status job0 = RUNNING -> status job1 = RUNNING ->
          router.cancel_job jm threads id
          = (router.Sent [("message", PyStr "Cancellation requested");
                          ("job_id", PyStr id)],
             snd (cancel_job
                    (threads_run (threads 1%nat)
                       (threads_run (threads 0%nat) jm)) id)) /\
          is_cancellation_requested
            (snd (router.cancel_job jm threads id)) id = true) /\
       (status job0 = RUNNING -> status job1 <> RUNNING ->
          router.cancel_job jm threads id
          = (router.Refused 400 "Failed to cancel job",
             threads_run (threads 1%nat) (threads_run (threads 0%nat) jm))) /\
       ((exists body, fst (router.cancel_job jm threads id) = router.Sent body)
        <-> status job0 = RUNNING /\ status job1 = RUNNING)) as Hknown.
  { intros job Hget.
    destruct (threads_run_present (threads 0%nat) jm id job Hget)
      as [job0 G0].
    destruct (threads_run_present (threads 1%nat) _ id job0 G0) as [job1 G1].
    exists job0, job1. split; [exact G0|]. split; [exact G1|].
    unfold router.cancel_job. rewrite Hget.
    rewrite (live_present _ _ job job0 G0).
    destruct (JobStatus_eqb (status job0) RUNNING) eqn:R0; cbn [negb].
    - apply JobStatus_eqb_eq in R0.
      unfold cancel_job, is_cancellation_requested.
      unfold get_job in G1. rewrite G1.
      destruct (JobStatus_eqb (status job1) RUNNING) eqn:R1; cbn [fst snd].
      + apply JobStatus_eqb_eq in R1.
        split; [now intros C|]. split; [|split].
        * intros _ _. split; [reflexivity|].
          unfold get_job. now rewrite dict_get_set_same.
        * intros _ C. contradiction.
        * split; [now intros _|]. intros _. now eexists.
      + assert (status job1 <> RUNNING) as N1
          by (intros C; apply JobStatus_eqb_eq in C; congruence).
        split; [now intros C|]. split; [|split].
        * intros _ C. contradiction.
        * intros _ _. reflexivity.
        * split; [intros [body C]; discriminate|]. intros [_ C].
          contradiction.
    - assert (status job0 <> RUNNING) as N0
        by (intros C; apply JobStatus_eqb_eq in C; congruence).
      rewrite (live_present _ _ job job1 G1). cbn [fst snd].
      split; [now intros _|]. split; [|split].
      + intros C. contradiction.
      + intros C. contradiction.
      + split; [intros [body C]; discriminate|]. intros [C _].
        contradiction. }
  split; [|split; [exact Hknown|split]].
  - intros Hnone. unfold router.cancel_job. now rewrite Hnone.
  - intros job res now Hget Hrun E0 E1.
    destruct (Hknown job Hget) as (job0 & job1 & G0 & G1 & _ & _ & Hfail & _).
    rewrite E0 in G0, G1. rewrite E1 in G1.
    unfold threads_run in G0, G1.
    cbn [fold_left thread_call_run] in G0, G1.
    assert (job0 = job) as -> by congruence.
    rewrite Hfail; [reflexivity|exact Hrun|].
    unfold mark_job_completed in G1.
    rewrite with_job_get_same, Hget in G1. cbn in G1.
    injection G1 as <-. cbn. discriminate.
  - intros E0 E1.
    destruct (get_job jm id) as [job|] eqn:Hget.
    + destruct (Hknown job eq_refl)
        as (job0 & job1 & G0 & G1 & _ & _ & Hfail & Hiff).
      rewrite E0 in G0, G1. rewrite E1 in G1.
    unfold threads_run in G0, G1.
    cbn [fold_left thread_call_run] in G0, G1.
      assert (job0 = job) as -> by congruence.
      assert (job1 = job) as -> by congruence.
      split.
      * rewrite Hiff. split.
        -- intros [R _]. now exists job.
        -- intros (j & [= <-] & R). now split.
      * unfold router.cancel_job. rewrite Hget, E0, E1.
        cbn [threads_run fold_left].
        rewrite (live_present _ _ job job Hget).
        unfold cancel_job. unfold get_job in Hget. rewrite Hget.
        destruct (JobStatus_eqb (status job) RUNNING); cbn; [discriminate|].
        destruct (status job); cbn; discriminate.
    + unfold router.cancel_job. rewrite Hget. cbn [fst]. split.
      * split; [intros [body C]; discriminate|].
        intros (j & C & _). discriminate.
      * discriminate.
Qed.

Section Listing.





Lemma status_value_injective (a b : JobStatus) :
  status_value a = status_value b -> a = b.
Proof. destruct a, b; cbn; intros E; try reflexivity; discriminate. Qed.

Lemma stage_value_injective (a b : JobStage) :
  stage_value a = stage_value b -> a = b.
Proof. destruct a, b; cbn; intros E; try reflexivity; discriminate. Qed.

End Listing.


(** In a well-formed registry the job the key gives back is stored under its
    own id. *)
Lemma find_existing_registered (jm : JobManager) (key : option string)
    (job : Job) :
  registry_wf jm ->
  find_existing (dict_values jm) key = Some job ->
  get_job jm (job_id job) = Some job.
Proof.
  intros [Hnd Hid] E. apply find_existing_Some in E. destruct E as (Hin & _).
  apply in_map_iff in Hin. destruct Hin as ([k v] & <- & Hin). cbn [snd].
  rewrite (Hid k v Hin). now apply In_dict_get.
Qed.

(** X10. The create endpoint reads the status of the job [create_job] gave
    it after the lock is released, and schedules a run exactly when that
    reading is PENDING or RETRY.  A job just created is scheduled, once, under
    its own id, no background task knowing it yet.  A RUNNING or COMPLETED
    job the idempotency key gave back is not scheduled when no background
    task touches it before the reading; but when its run fails in between and
    leaves it in RETRY, the same job is scheduled again.  The registry is
    [create_job]'s, with what the background tasks did meanwhile. *)
Theorem create_endpoint_schedules_on_status_read (jm : JobManager)
    (threads : nat -> list thread_call) (tasks : list string)
    (request : router.CreateJobRequest) (u ta tb : string) :
  registry_wf jm ->
  let key := router.request_idempotency_key request in
  let hit := if truthy key then find_existing (dict_values jm) key else None in
  let out := router.create_job jm threads tasks request u ta tb in
  let at_read := threads_run (threads 0%nat)
                   (snd (create_job jm (router.request_query request) key
                           u ta tb)) in
  snd (fst out) = threads_run (threads 1%nat) at_read /\
  (hit = None ->
     (forall c, In c (threads 0%nat) -> call_id c <> u) ->
     let job := Job_new u (router.request_query request) key ta tb in
     get_job at_read u = Some job /\
     snd out = (tasks ++ [u])%list /\
     ((forall c, In c (threads 1%nat) -> call_id c <> u) ->
      fst (fst out) = router.Sent (router.JobResponse_of (to_dict job)))) /\
  (forall job, hit = Some job ->
     active (status job) = true /\
     exists job0,
       get_job at_read (job_id job) = Some job0 /\
       snd out = if status_in (status job0) [PENDING; RETRY]
                 then (tasks ++ [job_id job])%list else tasks) /\
  (forall job, hit = Some job ->
     (forall c, In c (threads 0%nat) -> call_id c <> job_id job) ->
     snd out = tasks) /\
  (forall job err now, hit = Some job ->
     status job = RUNNING ->
     retry_count job < max_retries job ->
     threads 0%nat = [call_mark_job_failed (job_id job) err now] ->
     snd out = (tasks ++ [job_id job])%list).
Proof.
  intros Hwf. cbv zeta.
  unfold router.create_job.
  destruct (create_job jm (router.request_query request)
              (router.request_idempotency_key request) u ta tb)
    as [job1 jm1] eqn:C.
  cbn [fst snd].
  split; [reflexivity|].
  unfold create_job in C.
  destruct (if truthy (router.request_idempotency_key request)
            then find_existing (dict_values jm)
                   (router.request_idempotency_key request)
            else None) as [job|] eqn:E.
  - injection C as <- <-.
    assert (find_existing (dict_values jm)
              (router.request_idempotency_key request) = Some job) as F.
    { destruct (truthy (router.request_idempotency_key request));
        [exact E|discriminate]. }
    pose proof (find_existing_registered _ _ _ Hwf F) as Hget.
    destruct (find_existing_Some _ _ _ F) as (_ & _ & A).
    split; [discriminate|]. split; [|split].
    + intros j [= <-]. split; [exact A|].
      destruct (threads_run_present (threads 0%nat) jm (job_id job) job Hget)
        as [job0 G0].
      exists job0. split; [exact G0|].
      now rewrite (live_present _ _ job job0 G0).
    + intros j [= <-] Hquiet.
      pose proof (threads_run_other (threads 0%nat) jm (job_id job) Hquiet)
        as G0.
      rewrite Hget in G0. rewrite (live_present _ _ job job G0).
      unfold active in A.
      destruct (status job); try discriminate A; reflexivity.
    + intros j err now [= <-] Hrun Hlt E0. rewrite E0.
      unfold threads_run. cbn [fold_left thread_call_run].
      assert (get_job (mark_job_failed jm (job_id job) err true now)
                (job_id job)
              = Some (set_retry_count (retry_count job + 1)
                        (set_status RETRY (set_error (Some err) job)))) as G.
      { unfold mark_job_failed. rewrite with_job_get_same, Hget.
        cbn. apply Z.ltb_lt in Hlt. now rewrite Hlt. }
      now rewrite (live_present _ _ job _ G).
  - injection C as <- <-. cbn [job_id Job_new].
    split; [|split; [discriminate|split; discriminate]].
    intros _ Hquiet.
    assert (get_job
              (dict_set jm u
                 (Job_new u (router.request_query request)
                    (router.request_idempotency_key request) ta tb)) u
            = Some (Job_new u (router.request_query request)
                      (router.request_idempotency_key request) ta tb)) as G.
    { unfold get_job. apply dict_get_set_same. }
    pose proof (threads_run_other (threads 0%nat)
                  (dict_set jm u
                     (Job_new u (router.request_query request)
                        (router.request_idempotency_key request) ta tb))
                  u Hquiet) as G0.
    rewrite G in G0.
    split; [exact G0|]. rewrite (live_present _ _ _ _ G0).
    split; [reflexivity|].
    intros Hquiet1.
    pose proof (threads_run_other (threads 1%nat)
                  (threads_run (threads 0%nat)
                     (dict_set jm u
                        (Job_new u (router.request_query request)
                           (router.request_idempotency_key request) ta tb)))
                  u Hquiet1) as G1.
    rewrite G0 in G1. now rewrite (live_present _ _ _ _ G1).
Qed.

(** A job under key [k] is RUNNING.  The post that repeats the key is given
    that job, whose run fails before the handler reads its status: the job is
    scheduled a second time. *)
Lemma create_endpoint_schedules_on_status_read_witness :
  let jm := update_job_status
              (snd (create_job [] "X" (Some "k") "job-1" "t0" "t0"))
              "job-1" RUNNING "t1" in
  let threads := fun n : nat =>
    match n with
    | O => [call_mark_job_failed "job-1" "boom" "t2"]
    | S _ => []
    end in
  registry_wf jm /\
  field status jm "job-1" = Some RUNNING /\
  snd (router.create_job jm threads ["job-1"]
         (router.mkCreateJobRequest "X" (Some "k")) "job-2" "t3" "t3")
  = ["job-1"; "job-1"].
Proof.
  cbv zeta.
  assert (registry_wf
            (update_job_status
               (snd (create_job [] "X" (Some "k") "job-1" "t0" "t0"))
               "job-1" RUNNING "t1")) as W.
  { split; [repeat constructor; intros [] |].
    intros k job [[= <- <-] | []]. reflexivity. }
  split; [exact W|]. split; [reflexivity|].
  refine (proj2 (proj2 (proj2 (proj2
            (create_endpoint_schedules_on_status_read _
               (fun n => match n with
                         | O => [call_mark_job_failed "job-1" "boom" "t2"]
                         | S _ => []
                         end)
               ["job-1"] (router.mkCreateJobRequest "X" (Some "k"))
               "job-2" "t3" "t3" W))))
            _ "boom" "t2" eq_refl eq_refl _ eq_refl).
  reflexivity.
Defined.

(** X11. [to_dict] loses nothing: two jobs with the same dictionary are the
    same job, the status and stage names being pairwise distinct. *)
Theorem to_dict_injective (job1 job2 : Job) :
  to_dict job1 = to_dict job2 -> job1 = job2.
Proof.
  destruct job1 as [i1 q1 s1 c1 st1 co1 [cs1 sc1 ts1 cn1 pe1 op1 lu1]
                      r1 e1 rc1 mr1 cr1 ik1 eh1].
  destruct job2 as [i2 q2 s2 c2 st2 co2 [cs2 sc2 ts2 cn2 pe2 op2 lu2]
                      r2 e2 rc2 mr2 cr2 ik2 eh2].
  unfold to_dict. cbn. intros E. injection E. intros. subst.
  assert (s1 = s2) as -> by now apply status_value_injective.
  assert (cs1 = cs2) as -> by now apply stage_value_injective.
  reflexivity.
Qed.

Lemma to_dict_injective_witness :
  let job := Job_new "job-1" "X" None "t0" "t0" in
  to_dict job = to_dict job /\ job = job.
Proof.
  cbv zeta. split; [reflexivity|].
  exact (to_dict_injective _ _ eq_refl).
Defined.

(** * Further properties of the runner *)

Section RaiseRules.

Context {A B : Type}.




End RaiseRules.

Section Escapes.

Context {A B : Type}.

Lemma may_raise_bind (m : Run A) (k : A -> Run B)
    (S : BaseException -> Prop) :
  may_raise m S -> (forall a, may_raise (k a) S) -> may_raise (bind m k) S.
Proof.
  intros Hm Hk w e w'. unfold bind.
  destruct (m w) as [[a | e1] w1] eqn:E1.
  - apply Hk.
  - intros [= <- _]. exact (Hm _ _ _ E1).
Qed.

Lemma may_raise_ret (a : A) (S : BaseException -> Prop) :
  may_raise (ret a) S.
Proof. intros w e w'. unfold ret. discriminate. Qed.

End Escapes.

Section EscapesOfRun.

Variable clock : nat -> string.
Variable env : nat -> JobManager -> JobManager.
Variable ResearchAgent_init : option BaseException.
Variable run_research : string -> outcome pydict.

Lemma may_raise_manager_call (f : JobManager -> string -> JobManager)
    (S : BaseException -> Prop) :
  may_raise (manager_call clock f) S.
Proof. intros w e w'. unfold manager_call. discriminate. Qed.

Lemma may_raise_suspend (S : BaseException -> Prop) :
  may_raise (suspend env) S.
Proof. intros w e w'. unfold suspend. discriminate. Qed.

Lemma may_raise_check (id : string) (S : BaseException -> Prop) :
  may_raise (_check_cancellation id) S.
Proof. intros w e w'. unfold _check_cancellation. discriminate. Qed.

Lemma may_raise_handle (id : string) (S : BaseException -> Prop) :
  may_raise (_handle_cancellation clock id) S.
Proof.
  unfold _handle_cancellation. apply may_raise_bind.
  - apply may_raise_manager_call.
  - intros _. apply may_raise_ret.
Qed.

Lemma may_raise_record (id : string) (stage : JobStage) (details : string)
    (S : BaseException -> Prop) :
  may_raise (record_stage clock id stage details) S.
Proof. apply may_raise_manager_call. Qed.

Lemma update_job_progress_raises (jm : JobManager) (id : string)
    (stage : JobStage) (operation now : string) (e : BaseException) :
  snd (update_job_progress jm id stage operation now) = Some e ->
  e = ZeroDivisionError.
Proof.
  unfold update_job_progress.
  destruct (dict_get jm id) as [job|]; [|discriminate].
  unfold update.
  destruct (py_truediv _ _); cbn; [discriminate|].
  now intros [= <-].
Qed.

Lemma may_raise_progress_call (id : string) (stage : JobStage)
    (operation : string) :
  may_raise (progress_call clock id stage operation)
    (body_exception ResearchAgent_init run_research).
Proof.
  intros w e w'. unfold progress_call.
  destruct (update_job_progress _ _ _ _ _) as [jm [e1|]] eqn:E;
    [|discriminate].
  intros [= <- _]. left.
  assert (e1 = ZeroDivisionError) as ->
    by (apply (update_job_progress_raises (registry w) id stage operation
                 (clock (instant w))); now rewrite E).
  now eexists _, _.
Qed.

Lemma may_raise_stage_steps (id : string) (stage : JobStage)
    (operation : string) (steps : Z) (step_delay : float) (range : list Z) :
  may_raise (stage_steps clock env id stage operation steps step_delay range)
    (body_exception ResearchAgent_init run_research).
Proof.
  induction range as [|step rest IH]; cbn [stage_steps].
  - apply may_raise_ret.
  - apply may_raise_bind; [apply may_raise_suspend|intros _].
    apply may_raise_bind; [apply may_raise_check|intros [|]].
    + apply may_raise_ret.
    + apply may_raise_bind; [apply may_raise_progress_call|intros _].
      exact IH.
Qed.

Lemma may_raise_stage (id : string) (stage : JobStage) (operation : string) :
  may_raise (_execute_stage_with_delay clock env id stage operation)
    (body_exception ResearchAgent_init run_research).
Proof.
  unfold _execute_stage_with_delay.
  apply may_raise_bind; [apply may_raise_progress_call|intros _].
  apply may_raise_stage_steps.
Qed.

Lemma may_raise_ResearchAgent :
  may_raise (ResearchAgent ResearchAgent_init)
    (body_exception ResearchAgent_init run_research).
Proof.
  intros w e w'. unfold ResearchAgent.
  destruct ResearchAgent_init as [e1|] eqn:E.
  - unfold raise. intros [= <- _]. right. now left.
  - unfold ret. discriminate.
Qed.

Lemma may_raise_run_research (q : string) :
  may_raise (await_run_research env run_research q)
    (body_exception ResearchAgent_init run_research).
Proof.
  unfold await_run_research.
  apply may_raise_bind; [apply may_raise_suspend|intros _].
  intros w e w'. destruct (run_research q) as [r | e1] eqn:E.
  - unfold ret. discriminate.
  - unfold raise. intros [= <- _]. right. right. now exists q.
Qed.

Lemma may_raise_body (id : string) (job : Job) :
  may_raise
    (execute_job_body clock env ResearchAgent_init run_research id job)
    (body_exception ResearchAgent_init run_research).
Proof.
  unfold execute_job_body.
  repeat first
    [ apply may_raise_ret
    | apply may_raise_handle
    | apply may_raise_stage
    | apply may_raise_check
    | apply may_raise_record
    | apply may_raise_ResearchAgent
    | apply may_raise_run_research
    | apply may_raise_manager_call
    | apply may_raise_bind; [|intros ?]
    | match goal with
      | |- may_raise (if ?c then _ else _) _ => destruct c
      end ].
Qed.

(** What [execute_job] raises: never a [CancelledError], and nothing outside
    [Exception] that the collaborator did not raise. *)
Lemma may_raise_execute_job (id : string) :
  may_raise (execute_job clock env ResearchAgent_init run_research id)
    (fun e =>
       e <> CancelledError /\
       body_exception ResearchAgent_init run_research e).
Proof.
  intros w e w'. unfold execute_job.
  destruct (get_job (registry w) id) as [job|].
  - unfold bind at 1, manager_call at 1, try_except.
    destruct (execute_job_body clock env ResearchAgent_init run_research id
                job _) as [[r | e0] w1] eqn:E.
    + discriminate.
    + pose proof (may_raise_body id job _ _ _ E) as Hbody.
      destruct e0 as [|n m|n m].
      * unfold _handle_cancellation, bind, manager_call, ret. discriminate.
      * unfold raise. intros [= <- _]. split; [discriminate|exact Hbody].
      * unfold bind, manager_call, raise. intros [= <- _].
        split; [discriminate|exact Hbody].
  - unfold raise. intros [= <- _]. split; [discriminate|].
    left. now eexists _, _.
Qed.

End EscapesOfRun.

(** X12. [execute_job] never lets a [CancelledError] out, and
    [execute_job_wrapper] raises neither a [CancelledError] nor an
    [Exception].  The only thing that leaves the background task as an
    exception is a [SystemExit], [KeyboardInterrupt] or [GeneratorExit] that
    [ResearchAgent()] or [run_research] raised, which no handler of the two
    functions catches.  When the collaborator raises nothing of that kind, the
    background task returns, whatever the registry and the other contexts
    do. *)
Theorem wrapper_raises_only_outside_exception (clock : nat -> string)
    (env : nat -> JobManager -> JobManager)
    (ResearchAgent_init : option BaseException)
    (run_research : string -> outcome pydict) (id : string) (w : World) :
  (forall e w',
     execute_job clock env ResearchAgent_init run_research id w
       = (Raised e, w') ->
     e <> CancelledError /\
     ((exists n m, e = Exception n m) \/
      ResearchAgent_init = Some e \/ exists q, run_research q = Raised e)) /\
  (forall e w',
     execute_job_wrapper clock env ResearchAgent_init run_research id w
       = (Raised e, w') ->
     (exists n m, e = OtherBaseException n m) /\
     (ResearchAgent_init = Some e \/ exists q, run_research q = Raised e)) /\
  ((forall n m, ResearchAgent_init <> Some (OtherBaseException n m)) ->
   (forall q n m, run_research q <> Raised (OtherBaseException n m)) ->
   exists r w',
     execute_job_wrapper clock env ResearchAgent_init run_research id w
       = (Returned r, w')).
Proof.
  assert (forall e w',
            execute_job_wrapper clock env ResearchAgent_init run_research id w
              = (Raised e, w') ->
            (exists n m, e = OtherBaseException n m) /\
            (ResearchAgent_init = Some e \/
             exists q, run_research q = Raised e)) as Hwrap.
  { intros e w'. unfold execute_job_wrapper, try_except, bind at 1.
    destruct (execute_job clock env ResearchAgent_init run_research id w)
      as [[r | e0] w1] eqn:E.
    - unfold ret. discriminate.
    - destruct (may_raise_execute_job clock env ResearchAgent_init
                  run_research id _ _ _ E) as [Hnc Hbody].
      destruct e0 as [|n m|n m].
      + now contradiction Hnc.
      + unfold raise. intros [= <- _]. split; [now eexists _, _|].
        destruct Hbody as [(n' & m' & [=]) | Hc]. exact Hc.
      + unfold bind, manager_call, ret. discriminate. }
  split; [|split].
  - intros e w' E.
    exact (may_raise_execute_job clock env ResearchAgent_init run_research
             id _ _ _ E).
  - exact Hwrap.
  - intros Hinit Hrun.
    destruct (execute_job_wrapper clock env ResearchAgent_init run_research
                id w) as [[r | e] w1] eqn:E.
    + now eexists _, _.
    + destruct (Hwrap e w1 eq_refl) as [(n & m & ->) [Hi | (q & Hq)]].
      * now contradiction (Hinit n m).
      * now contradiction (Hrun q n m).
Qed.

(** [ResearchAgent()] calls [sys.exit(1)] on a new job: the exception leaves
    the background task and the job is left RUNNING. *)
Lemma wrapper_raises_only_outside_exception_witness :
  let init := Some (OtherBaseException "SystemExit" "1") in
  let out := execute_job_wrapper wall_clock quiet init (fun _ => Returned [])
               "job-1" (fresh_world "X") in
  fst out = Raised (OtherBaseException "SystemExit" "1") /\
  field status (registry (snd out)) "job-1" = Some RUNNING /\
  ((exists n m, OtherBaseException "SystemExit" "1" = OtherBaseException n m)
   /\
   (init = Some (OtherBaseException "SystemExit" "1") \/
    exists q, (fun _ : string => @Returned pydict []) q
              = Raised (OtherBaseException "SystemExit" "1"))).
Proof.
  cbv zeta. split; [vm_compute; reflexivity|].
  split; [vm_compute; reflexivity|].
  refine (proj1 (proj2 (wrapper_raises_only_outside_exception wall_clock quiet
                          (Some (OtherBaseException "SystemExit" "1"))
                          (fun _ => Returned []) "job-1" (fresh_world "X")))
            (OtherBaseException "SystemExit" "1") _ _).
  vm_compute. reflexivity.
Defined.

(** X13. A run scheduled for an id that is not (or no longer) in the registry
    does nothing: [execute_job] raises [ValueError("Job <id> not found")]
    before touching anything, and the wrapper swallows it, its
    [mark_job_failed] finding no job to mark; the registry is unchanged. *)
Theorem run_of_unknown_job_changes_nothing (clock : nat -> string)
    (env : nat -> JobManager -> JobManager)
    (ResearchAgent_init : option BaseException)
    (run_research : string -> outcome pydict) (id : string) (w : World) :
  get_job (registry w) id = None ->
  execute_job clock env ResearchAgent_init run_research id w
    = (Raised (Exception "ValueError" ("Job " ++ id ++ " not found")), w) /\
  fst (execute_job_wrapper clock env ResearchAgent_init run_research id w)
    = Returned None /\
  registry (snd (execute_job_wrapper clock env ResearchAgent_init
                   run_research id w)) = registry w /\
  awaits (snd (execute_job_wrapper clock env ResearchAgent_init
                 run_research id w)) = awaits w.
Proof.
  intros Hget.
  assert (execute_job clock env ResearchAgent_init run_research id w
          = (Raised (Exception "ValueError" ("Job " ++ id ++ " not found")), w))
    as E.
  { unfold execute_job. now rewrite Hget. }
  split; [exact E|].
  assert (execute_job_wrapper clock env ResearchAgent_init run_research id w
          = (Returned None,
             mkWorld
               (mark_job_failed (registry w) id
                  ("ValueError" ++ ": " ++ "Job " ++ id ++ " not found")
                  true (clock (instant w)))
               (S (instant w)) (awaits w))) as ->.
  { unfold execute_job_wrapper, try_except, bind at 1. rewrite E.
    reflexivity. }
  cbn [fst snd registry awaits].
  split; [reflexivity|]. split; [|reflexivity].
  unfold mark_job_failed. now apply with_job_absent.
Qed.

(** A job is created and deleted before its background task runs. *)
Lemma run_of_unknown_job_changes_nothing_witness :
  let jm := snd (create_job [] "X" None "job-1" "t0" "t0") in
  let jm := snd (router.delete_job jm "job-1") in
  let w := mkWorld jm 0 0 in
  get_job jm "job-1" = None /\
  fst (execute_job_wrapper wall_clock quiet None (fun _ => Returned [])
         "job-1" w) = Returned None /\
  registry (snd (execute_job_wrapper wall_clock quiet None
                   (fun _ => Returned []) "job-1" w)) = jm.
Proof.
  cbv zeta. split; [reflexivity|].
  destruct (run_of_unknown_job_changes_nothing wall_clock quiet None
              (fun _ => Returned []) "job-1"
              (mkWorld (snd (router.delete_job
                               (snd (create_job [] "X" None "job-1" "t0" "t0"))
                               "job-1")) 0 0) eq_refl)
    as (_ & R & G & _).
  split; [exact R | exact G].
Defined.

Section RecordedStages.

Lemma update_recorded (done : list string) (p : JobProgress) (s : JobStage)
    (op now : string) :
  recorded done p ->
  recorded (stage_value s :: done) (fst (update p s op now)).
Proof.
  intros [C I].
  destruct (update_consistent p s op now C) as (_ & C' & Hcount & _).
  split; [exact C'|].
  assert (incl (stages_completed p)
            (stages_completed (fst (update p s op now)))) as Hgrow.
  { destruct Hcount as [(_ & E & _) | (_ & E & _)]; rewrite E;
      [apply incl_refl | apply incl_appl, incl_refl]. }
  intros x [<- | Hx]; [|now apply Hgrow, I].
  destruct Hcount as [(Hin & E & _) | (_ & E & _)]; rewrite E;
    [assumption | apply in_or_app; right; now left].
Qed.

Lemma recorded_weaken (done done' : list string) (p : JobProgress) :
  incl done' done -> recorded done p -> recorded done' p.
Proof.
  intros Hincl [C I]. split; [exact C|].
  intros x Hx. now apply I, Hincl.
Qed.

Lemma stage_values_distinct : NoDup (map stage_value all_stages).
Proof.
  repeat constructor; cbn; intuition discriminate.
Qed.

Lemma recorded_all_complete (done : list string) (p : JobProgress) :
  incl (map stage_value all_stages) done ->
  recorded done p ->
  completed_stages p = 7 /\
  forall s, In (stage_value s) (stages_completed p).
Proof.
  intros Hall [C I].
  assert (incl (map stage_value all_stages) (stages_completed p)) as Hin.
  { intros x Hx. now apply I, Hall. }
  split.
  - pose proof (consistent_count_bounds p C) as B.
    pose proof (NoDup_incl_length stage_values_distinct Hin) as L.
    rewrite (pc_count p C) in *. cbn in L. lia.
  - intros s. apply Hin, stage_value_known.
Qed.

End RecordedStages.

Section RunningJob.

Variable clock : nat -> string.
Variable env : nat -> JobManager -> JobManager.
Variable id : string.
Variable job0 : Job.

Hypothesis env_leaves_entry :
  forall n jm, get_job (env n jm) id = get_job jm id.

Lemma progress_call_running (flag : bool) (Pp Pp' : JobProgress -> Prop)
    (H : list string) (s : JobStage) (op : string) :
  (forall p now, total_stages p <> 0 -> Pp p ->
     Pp' (fst (update p s op now))) ->
  triple (holds id (running job0 flag Pp H)) (progress_call clock id s op)
    (fun _ => holds id (running job0 flag Pp' H)).
Proof.
  intros Hcl w (job & Hget & Hc & Ht & Hh & Hu & Hp). unfold progress_call.
  destruct (update_job_progress_entry id (registry w) job s op
              (clock (instant w)) Hget) as [E X].
  destruct (update_no_raise (progress job) s op (clock (instant w)) Ht)
    as [N T].
  destruct (update_job_progress (registry w) id s op (clock (instant w)))
    as [jm exc]. cbn [fst snd] in E, X. rewrite N in X. subst exc.
  eexists tt, _. split; [reflexivity|].
  eexists. split; [exact E|].
  split; [exact Hc|]. split; [cbn; now rewrite T|]. split; [exact Hh|].
  split; [exact Hu|]. cbn [progress set_progress]. now apply Hcl.
Qed.

Lemma suspend_running (flag : bool) (Pp : JobProgress -> Prop)
    (H : list string) :
  triple (holds id (running job0 flag Pp H)) (suspend env)
    (fun _ => holds id (running job0 flag Pp H)).
Proof.
  intros w (job & Hget & HP). eexists tt, _. split; [reflexivity|].
  exists job. split; [|exact HP]. cbn. now rewrite env_leaves_entry.
Qed.

Lemma check_running (flag : bool) (Pp : JobProgress -> Prop)
    (H : list string) :
  triple (holds id (running job0 flag Pp H)) (_check_cancellation id)
    (fun c w => c = flag /\ holds id (running job0 flag Pp H) w).
Proof.
  intros w (job & Hget & HP). eexists _, w. split; [reflexivity|].
  split; [|now exists job].
  unfold is_cancellation_requested. rewrite Hget. apply HP.
Qed.

Lemma stage_steps_running (flag : bool) (Pp : JobProgress -> Prop)
    (H : list string) (s : JobStage) (op : string) (steps : Z) (d : float)
    (range : list Z) :
  (forall p op' now, total_stages p <> 0 -> Pp p ->
     Pp (fst (update p s op' now))) ->
  triple (holds id (running job0 flag Pp H))
    (stage_steps clock env id s op steps d range)
    (fun _ => holds id (running job0 flag Pp H)).
Proof.
  intros Hcl. induction range as [|step rest IH]; cbn [stage_steps].
  - eapply triple_post; [apply triple_ret|]. now intros ? ? [_ HP].
  - eapply triple_bind; [apply suspend_running|]. intros ?.
    eapply triple_bind; [apply check_running|]. intros c.
    apply triple_pure. intros ->. destruct flag.
    + eapply triple_post; [apply triple_ret|]. now intros ? ? [_ HP].
    + eapply triple_bind; [apply progress_call_running|]; [|intros ?; exact IH].
      intros p now. apply Hcl.
Qed.

Lemma stage_running (flag : bool) (Pp Pp' : JobProgress -> Prop)
    (H : list string) (s : JobStage) (op : string) :
  (forall p op' now, total_stages p <> 0 -> Pp p ->
     Pp' (fst (update p s op' now))) ->
  (forall p op' now, total_stages p <> 0 -> Pp' p ->
     Pp' (fst (update p s op' now))) ->
  triple (holds id (running job0 flag Pp H))
    (_execute_stage_with_delay clock env id s op)
    (fun _ => holds id (running job0 flag Pp' H)).
Proof.
  intros H1 H2. unfold _execute_stage_with_delay.
  eapply triple_bind; [apply progress_call_running|].
  - intros p now. apply H1.
  - intros ?. now apply stage_steps_running.
Qed.

Lemma record_running (flag : bool) (Pp : JobProgress -> Prop)
    (H : list string) (s : JobStage) (d : string) :
  triple (holds id (running job0 flag Pp H)) (record_stage clock id s d)
    (fun _ => holds id (running job0 flag Pp (H ++ [stage_value s])%list)).
Proof.
  intros w (job & Hget & Hc & Ht & Hh & Hu & Hp).
  eexists tt, _. split; [reflexivity|].
  eexists. split.
  - cbn [registry]. rewrite with_job_get_same, Hget. reflexivity.
  - split; [exact Hc|]. split; [exact Ht|]. split; [|split; assumption].
    cbn. rewrite map_app, Hh. reflexivity.
Qed.

Lemma started_running (flag : bool) (Pp : JobProgress -> Prop)
    (H : list string) :
  triple (holds id (running job0 flag Pp H))
    (manager_call clock (fun jm now => update_job_status jm id RUNNING now))
    (fun _ => holds id (running job0 flag Pp H)).
Proof.
  intros w (job & Hget & Hc & Ht & Hh & Hu & Hp).
  eexists tt, _. split; [reflexivity|].
  eexists. split.
  - cbn [registry]. exact (update_job_status_entry id _ _ RUNNING _ Hget).
  - cbn [JobStatus_eqb andb].
    destruct (negb (truthy (started_at job)));
      (split; [exact Hc|]; split; [exact Ht|]; split; [exact Hh|];
       split; [exact Hu | exact Hp]).
Qed.




Lemma await_run_research_running (flag : bool) (Pp : JobProgress -> Prop)
    (H : list string) (run_research : string -> outcome pydict)
    (q : string) (res : pydict) :
  run_research q = Returned res ->
  triple (holds id (running job0 flag Pp H))
    (await_run_research env run_research q)
    (fun r w => r = res /\ holds id (running job0 flag Pp H) w).
Proof.
  intros Hres. unfold await_run_research. rewrite Hres.
  eapply triple_bind; [apply suspend_running|]. intros ?. apply triple_ret.
Qed.

Lemma untouched_refl : untouched job0 job0.
Proof. repeat split. Qed.







Lemma completed_running (done H : list string) (res : pydict) :
  incl (map stage_value all_stages) done ->
  triple (holds id (running job0 false (recorded done) H))
    (manager_call clock (fun jm now => mark_job_completed jm id res now))
    (fun _ => holds id (fun job =>
       status job = COMPLETED /\ result job = Some res /\
       error job = error job0 /\ retry_count job = retry_count job0 /\
       progress_consistent (progress job) /\
       completed_stages (progress job) = 7 /\
       (forall s, In (stage_value s) (stages_completed (progress job))) /\
       percentage (progress job) = 100%float)).
Proof.
  intros Hall w (job & Hget & Hc & Ht & Hh & Hu & Hp).
  destruct (recorded_all_complete _ _ Hall Hp) as [H7 Hevery].
  destruct Hp as [[T Cn Nd Nm Pc] _].
  destruct Hu as (_ & Hr & _ & He & _).
  eexists tt, _. split; [reflexivity|].
  eexists. split.
  - cbn [registry]. exact (mark_job_completed_entry id _ _ res _ Hget).
  - cbn. split; [reflexivity|]. split; [reflexivity|].
    split; [exact He|]. split; [exact Hr|]. split; [|auto].
    constructor; cbn; try assumption. rewrite H7, T. reflexivity.
Qed.

Ltac recorded_stage_then_check :=
  cbv beta;
  match goal with
  | |- triple (holds _ (running _ _ (recorded ?done) _))
         (bind (_execute_stage_with_delay _ _ _ ?s _) _) _ =>
      eapply triple_bind;
        [apply (stage_running false (recorded done)
                  (recorded (stage_value s :: done)));
           [intros; now apply update_recorded
           |intros;
            apply (recorded_weaken (stage_value s :: stage_value s :: done));
              [intros x [<- | Hx]; [now left | right; right; exact Hx]
              |now apply update_recorded]]
        |];
      intros ?;
      eapply triple_bind; [apply check_running|];
      let c := fresh "c" in intros c; apply triple_pure; intros ->
  end.

Ltac recorded_then_record :=
  eapply triple_bind; [apply record_running|]; intros ?.

(** X17. After a run that meets no failure and no cancellation request, on a
    job whose progress record was consistent, the record is consistent
    again with every one of the seven stages recorded once:
    [completed_stages = 7 = total_stages], so the 100 that
    [mark_job_completed] writes is the percentage the counters give.  The
    run leaves [error] and [retry_count] as they were. *)
Theorem undisturbed_run_records_every_stage
    (run_research : string -> outcome pydict) (res : pydict) (w : World) :
  get_job (registry w) id = Some job0 ->
  cancellation_requested job0 = false ->
  progress_consistent (progress job0) ->
  run_research (query job0) = Returned res ->
  exists w' job',
    execute_job clock env None run_research id w = (Returned res, w') /\
    get_job (registry w') id = Some job' /\
    progress_consistent (progress job') /\
    completed_stages (progress job') = 7 /\
    (forall s, In (stage_value s) (stages_completed (progress job'))) /\
    percentage (progress job') = 100%float /\
    error job' = error job0 /\
    retry_count job' = retry_count job0.
Proof.
  intros Hget Hc Hcons Hres.
  assert (holds id (running job0 false (recorded [])
                      (map stage (execution_history job0))) w) as Hw.
  { exists job0. split; [exact Hget|]. split; [exact Hc|]. split.
    - rewrite (pc_total _ Hcons). discriminate.
    - split; [reflexivity|]. split; [apply untouched_refl|].
      split; [exact Hcons | intros x []]. }
  assert (triple
            (holds id (running job0 false (recorded [])
                         (map stage (execution_history job0))))
            (manager_call clock
               (fun jm now => update_job_status jm id RUNNING now) ;;;
             try_except
               (execute_job_body clock env None run_research id job0)
               (fun e =>
                  match e with
                  | CancelledError => _handle_cancellation clock id
                  | OtherBaseException _ _ => raise e
                  | Exception _ _ =>
                      manager_call clock (fun jm now =>
                        mark_job_failed jm id (str_exc e) true now) ;;;
                      raise e
                  end))
            (fun r => holds id (fun job =>
               r = res /\ status job = COMPLETED /\ result job = Some res /\
               error job = error job0 /\ retry_count job = retry_count job0 /\
               progress_consistent (progress job) /\
               completed_stages (progress job) = 7 /\
               (forall s, In (stage_value s) (stages_completed (progress job)))
               /\ percentage (progress job) = 100%float))) as T.
  { eapply triple_bind; [apply started_running|]. intros ?.
    apply triple_try_except. unfold execute_job_body.
    recorded_stage_then_check.
    eapply triple_bind; [apply triple_ret|]. intros u. apply triple_pure.
    intros ?. recorded_then_record.
    recorded_stage_then_check. recorded_then_record.
    recorded_stage_then_check. recorded_then_record.
    recorded_stage_then_check. recorded_then_record.
    recorded_stage_then_check. recorded_then_record.
    recorded_stage_then_check.
    eapply triple_bind;
      [exact (await_run_research_running false _ _ run_research _ res Hres)|].
    intros r. apply triple_pure. intros ->. recorded_then_record.
    cbv beta.
    match goal with
    | |- triple (holds _ (running _ _ (recorded ?done) _))
           (bind (_execute_stage_with_delay _ _ _ ?s _) _) _ =>
        eapply triple_bind;
          [apply (stage_running false (recorded done)
                    (recorded (stage_value s :: done)));
             [intros; now apply update_recorded
             |intros;
              apply (recorded_weaken (stage_value s :: stage_value s :: done));
                [intros x [<- | Hx]; [now left | right; right; exact Hx]
                |now apply update_recorded]]
          |];
        intros ?
    end.
    recorded_then_record.
    eapply triple_bind.
    - apply completed_running. cbn. intros x Hx.
      repeat (destruct Hx as [<- | Hx]; [cbn; tauto|]). destruct Hx.
    - intros ?. eapply triple_post; [apply triple_ret|].
      intros r w' (-> & job' & G & S).
      exists job'. split; [exact G|]. split; [reflexivity|].
      exact S. }
  destruct (T w Hw)
    as (r & w' & E & job' & G & -> & S1 & S2 & S3 & S4 & S5 & S6 & S7 & S8).
  exists w', job'. unfold execute_job. rewrite Hget.
  split; [exact E|]. split; [exact G|]. split; [exact S5|].
  split; [exact S6|]. split; [exact S7|]. split; [exact S8|].
  split; assumption.
Qed.

End RunningJob.





Lemma undisturbed_run_records_every_stage_witness :
  exists w' job',
    execute_job wall_clock quiet None (fun _ => Returned []) "job-1"
      (fresh_world "X") = (Returned [], w') /\
    get_job (registry w') "job-1" = Some job' /\
    completed_stages (progress job') = 7 /\
    percentage (progress job') = 100%float.
Proof.
  destruct (undisturbed_run_records_every_stage wall_clock quiet "job-1"
              (Job_new "job-1" "X" None "t0" "t0") (fun _ _ => eq_refl)
              (fun _ => Returned []) [] (fresh_world "X") eq_refl eq_refl
              (new_progress_consistent "t0") eq_refl)
    as (w' & job' & E & G & _ & S6 & _ & S8 & _).
  exists w', job'. repeat split; assumption.
Defined.

(** X18. On a new job, a cancel request served during the [k]-th sleep of the
    first six stages ([k < 30], five sleeps a stage) ends the run CANCELLED at
    the boundary of the stage it arrived in: the history holds a record for
    each earlier stage and none for that stage or any later one, no result is
    stored, and the outcome does not depend on [run_research], which is never
    reached. *)
Theorem cancel_stops_at_stage_boundary (clock : nat -> string) (q : string)
    (run_research : string -> outcome pydict) :
  Forall (fun k =>
      let run := run_with_cancel clock None run_research q k in
      fst run = Returned cancellation_result /\
      field status (registry (snd run)) "job-1" = Some CANCELLED /\
      field result (registry (snd run)) "job-1" = Some None /\
      field (fun job => map stage (execution_history job))
        (registry (snd run)) "job-1"
        = Some (firstn (k / 5) (map stage_value all_stages)))
    (seq 0 30).
Proof. repeat constructor. Qed.

(** * Properties of the session log and of the monitor *)

(** X19. [get_recent_logs(count)] always returns a suffix of the log.  For
    [count >= 1] it is the last [count] entries, or the whole log when that
    is shorter; for [count = 0] it is the whole log, not the empty list; for
    a negative [count = -k] it is the log without its first [k] entries. *)
Theorem get_recent_logs_edges (s : state.SharedState) :
  (forall count, exists earlier,
     state.logs s = (earlier ++ state.get_recent_logs s count)%list) /\
  (forall count, 0 < count ->
     Z.of_nat (List.length (state.get_recent_logs s count))
     = Z.min count (Z.of_nat (List.length (state.logs s)))) /\
  state.get_recent_logs s 0 = state.logs s /\
  (forall k, 0 < k ->
     state.get_recent_logs s (- k) = skipn (Z.to_nat k) (state.logs s)).
Proof.
  unfold state.get_recent_logs, slice_from.
  split; [|split; [|split]].
  - intros count.
    destruct (Z.leb 0 (- count)); eexists; symmetry; apply firstn_skipn.
  - intros count H. destruct (Z.leb_spec 0 (- count)); [lia|].
    rewrite length_skipn. lia.
  - reflexivity.
  - intros k H. rewrite Z.opp_involutive.
    destruct (Z.leb_spec 0 k); [reflexivity | lia].
Qed.

(** X20. Logging survives a disk that fails.  [add_log], [update_status] and
    [clear_state] always put their entry in the in-memory log, whatever the
    disk does; the audit file only grows, by that entry when the directory
    and the write succeed and not at all otherwise; a failed write raises
    nothing, while a failed [os.makedirs] (which is outside the [try]) is
    raised to the caller. *)
Theorem logging_survives_disk_failure (s : state.SharedState)
    (file : list state.LogEntry) (now : string) (disk : state.Disk) :
  let appended (out : state.SharedState * list state.LogEntry
                      * option BaseException) (before : list state.LogEntry)
               (message type : string) : Prop :=
    let '(s', file', exc) := out in
    (exists entry,
       state.logs s' = (before ++ [entry])%list /\
       state.log_message entry = message /\
       state.log_type entry = type /\
       state.log_timestamp entry = now /\
       state.log_session_id entry = state.session_id s /\
       (file' = file \/ file' = (file ++ [entry])%list) /\
       (state.makedirs disk = None -> state.open_write disk = None ->
          file' = (file ++ [entry])%list)) /\
    (forall n m, state.makedirs disk = None ->
       state.open_write disk = Some (Exception n m) ->
       exc = None /\ file' = file) /\
    (forall e, state.makedirs disk = Some e -> exc = Some e /\ file' = file) in
  (forall message type metadata,
     appended (state.add_log s file message type metadata now disk)
       (state.logs s) message (state.type_value type)) /\
  (forall new_status message,
     appended (state.update_status s file new_status message now disk)
       (state.logs s)
       (if String.eqb message ""
        then "Status changed to: " ++ state.status_value new_status
        else ("Status changed to: " ++ state.status_value new_status)
             ++ " - " ++ message)
       "status") /\
  appended (state.clear_state s file now disk) [] "State cleared" "info".
Proof.
  cbv zeta.
  assert (forall s0 message type metadata,
            let '(s', file', exc) :=
              state.add_log s0 file message type metadata now disk in
            (exists entry,
               state.logs s' = (state.logs s0 ++ [entry])%list /\
               state.log_message entry = message /\
               state.log_type entry = state.type_value type /\
               state.log_timestamp entry = now /\
               state.log_session_id entry = state.session_id s0 /\
               (file' = file \/ file' = (file ++ [entry])%list) /\
               (state.makedirs disk = None -> state.open_write disk = None ->
                  file' = (file ++ [entry])%list)) /\
            (forall n m, state.makedirs disk = None ->
               state.open_write disk = Some (Exception n m) ->
               exc = None /\ file' = file) /\
            (forall e, state.makedirs disk = Some e ->
               exc = Some e /\ file' = file)) as Hadd.
  { intros s0 message type metadata.
    unfold state.add_log, state._write_audit_log.
    destruct (state.makedirs disk) as [e|];
      [|destruct (state.open_write disk) as [[|n m|n m]|]];
      cbn; (split; [eexists; repeat split; auto; discriminate|]);
      split; intros; try discriminate; try (split; congruence); auto. }
  split; [|split].
  - intros message type metadata. apply Hadd.
  - intros new_status message. unfold state.update_status.
    destruct (String.eqb message ""); cbn [negb];
      apply (Hadd (state.set_status new_status s)).
  - unfold state.clear_state.
    apply (Hadd (state.mkSharedState "" state.IDLE (state.session_id s) [] []
                   [] 0 0 [] [] [] 0 [] 0 None "" "" ""
                   (state.audit_log_path s))).
Qed.

(** X21. The monitor and the registry agree on the seven stage names and
    their order, and the monitor has a display name for each.  Because
    [JobProgress.update] records a stage as completed at the moment it makes
    it the current stage, the indicator of an updated job shows that stage as
    done and never shows the current-stage marker; only a job that has not
    been updated yet shows it, on INITIALIZATION. *)
Theorem indicator_never_marks_current_stage (p : JobProgress)
    (s : JobStage) (op now : string) :
  let p' := fst (update p s op now) in
  monitor_job.all_stages = map stage_value all_stages /\
  (forall st, monitor_job.get_stage_name (stage_value st) <> stage_value st) /\
  List.length (monitor_job.stage_symbols (stages_completed p')
                 (stage_value (current_stage p'))) = 7%nat /\
  In (stage_value s) (stages_completed p') /\
  ~ In "▶" (monitor_job.stage_symbols (stages_completed p')
              (stage_value (current_stage p'))) /\
  (forall now', monitor_job.stage_symbols
     (stages_completed (JobProgress_default now'))
     (stage_value (current_stage (JobProgress_default now')))
   = ["▶"; "○"; "○"; "○"; "○"; "○"; "○"]).
Proof.
  cbv zeta.
  assert (current_stage (fst (update p s op now)) = s /\
          In (stage_value s) (stages_completed (fst (update p s op now))))
    as [Hcur Hin].
  { unfold update.
    destruct (str_in (stage_value s) (stages_completed p)) eqn:E;
      destruct (py_truediv _ _); cbn; split; try reflexivity;
      try (now apply str_in_In);
      apply in_or_app; right; now left. }
  split; [reflexivity|]. split; [intros st; destruct st; discriminate|].
  split; [reflexivity|]. split; [exact Hin|]. split; [|reflexivity].
  rewrite Hcur. unfold monitor_job.stage_symbols. intros H.
  apply in_map_iff in H. destruct H as (name & Hname & _).
  destruct (str_in name (stages_completed (fst (update p s op now)))) eqn:E;
    [discriminate|].
  destruct (String.eqb name (stage_value s)) eqn:N; [|discriminate].
  apply String.eqb_eq in N. subst name.
  apply str_in_In in Hin. congruence.
Qed.
